(** * Navigation policy of the desktop shell: external links

    A shallow embedding of [desktop/window-handlers/external-links/index.js].
    The module decides, for every navigation event of the main window,
    whether the destination loads in the application, opens a secondary
    application window, or is handed to the system browser; it also runs
    the recovery dialog shown when the editor of a site cannot be opened.

    The handlers are written in a state-and-exception monad over a [World]
    that records the calls made to the host (logger, shell, dialog,
    settings, window contents) and holds the listener table of the
    cross-process emitter.  Node's [url] module and the values of
    [lib/config] are interfaces: the development is parametric in them, and
    a sample implementation ([Node]) runs the handlers on concrete inputs.

    The logger, the shell, the settings store, [showMySites] and
    [webContents.send] are taken to return normally; the exceptions of the
    model are those of [new URL] and of [dialog.showMessageBox].  The
    sources also hold an earlier revision of the module, without the
    [isAdmin] branches of the prompt; the model follows [index.js]. *)

From Stdlib Require Import PrimFloat Ascii String.
From stdpp Require Import gmap strings list.

Open Scope string_scope.

(** ** Exceptions and results *)

Inductive Exn : Type :=
  | ERR_INVALID_URL (input : string)   (* the TypeError of [new URL(input)] *)
  | HostError (msg : string).          (* an error raised by a host primitive *)

Inductive Result (A : Type) : Type :=
  | Ok (a : A)
  | Throw (e : Exn).
Arguments Ok {A} a.
Arguments Throw {A} e.

Definition is_Ok {A} (r : Result A) : bool :=
  match r with Ok _ => true | Throw _ => false end.

(** ** The [url] module of the runtime *)

(** A parsed URL, by the string values of its component getters. *)
Record URL : Type := mkURL {
  protocol : string;   (* scheme followed by ':' *)
  username : string;
  password : string;
  hostname : string;
  port     : string;   (* '' when absent or the scheme's default *)
  pathname : string;
  search   : string;
  hash     : string;
}.

(** What the program uses of [require('url')]: the constructor, which
    throws on a string that is not an absolute URL, the two setters, the
    [origin] getter, [searchParams.get] and [format]. *)
Class UrlModule : Type := {
  URL_new : string -> Result URL;
  URL_set_hostname : URL -> string -> URL;
  URL_set_port : URL -> string -> URL;
  URL_origin : URL -> string;
  URL_searchParams_get : URL -> string -> option string;
  format : URL -> string;
  (* without a base URL the empty string is not a URL *)
  URL_new_empty : URL_new "" = Throw (ERR_INVALID_URL "");
}.

(** The values read from [lib/config] and [lib/settings/constants]. *)
Class Config : Type := {
  server_host : string;
  server_url : string;
  wordpress_host : string;
  wordpress_url : string;
  LAST_LOCATION : string;
}.

(** ** Host effects *)

Record MessageBoxOptions : Type := mkMessageBox {
  mb_type : string;
  mb_buttons : list string;
  mb_title : string;
  mb_message : string;
  mb_detail : string;
}.

(** Arguments of [webContents.send]. *)
Inductive Payload : Type :=
  | EnableSiteOption (siteId : nat) (option : string)
  | SiteId (siteId : nat)
  | Path (p : string).

(** One call to a collaborator, in the order the calls are made.  Of a
    logger call only the first argument is kept. *)
Inductive Effect : Type :=
  | log_info (msg : string)
  | log_error (msg : string)
  | shell_openExternal (url : string)
  | event_preventDefault (ev : nat)
  | dialog_showMessageBox (opts : MessageBoxOptions)
  | showMySites
  | Settings_saveSetting (key value : string)
  | webContents_send (channel : string) (arg : Payload)
  | unhandledRejection (e : Exn).

(** The payload of [cannot-open-editor]. *)
Record Info : Type := mkInfo {
  siteId : nat;
  origin : string;
  editorUrl : string;
  isAdmin : bool;
}.

(** Listeners of the cross-process emitter, as closures: the two inner
    listeners capture the [info] of the flow that registered them. *)
Inductive Listener : Type :=
  | on_cannot_open_editor
  | on_jetpack_module_activate_status
  | on_enable_site_option_response (info : Info)
  | on_request_site_response (info : Info).

Record World : Type := mkWorld {
  effects : list Effect;                     (* oldest first *)
  ipc_events : gmap string (list Listener);  (* listeners by channel *)
}.

Definition initial_world : World := mkWorld [] ∅.

(** ** The monad of handlers: state, and exceptions that keep the state *)

Definition M (A : Type) : Type := World -> Result A * World.

Definition ret {A} (a : A) : M A := fun w => (Ok a, w).

Definition bind {A B} (m : M A) (k : A -> M B) : M B :=
  fun w => match m w with
           | (Ok a, w') => k a w'
           | (Throw e, w') => (Throw e, w')
           end.

Definition try_catch {A} (m : M A) (h : Exn -> M A) : M A :=
  fun w => match m w with
           | (Ok a, w') => (Ok a, w')
           | (Throw e, w') => h e w'
           end.

Definition lift {A} (r : Result A) : M A := fun w => (r, w).

(** The world after the calls [es], made in that order. *)
Definition record (es : list Effect) (w : World) : World :=
  mkWorld (effects w ++ es)%list (ipc_events w).

Definition perform (e : Effect) : M unit :=
  fun w => (Ok tt, record [e] w).

Notation "x <-- m ;; k" := (bind m (fun x => k))
  (at level 100, m at next level, right associativity).
Notation "m ;;; k" := (bind m (fun _ => k))
  (at level 100, right associativity).

(** [ipc.on(channel, listener)]: the listener is added after the ones
    already registered for the channel. *)
Definition ipc_on (channel : string) (l : Listener) : M unit :=
  fun w => (Ok tt,
            mkWorld (effects w)
                    (<[channel := (default [] (ipc_events w !! channel) ++ [l])%list]> (ipc_events w))).

(** [ipc.removeAllListeners(channel)]. *)
Definition ipc_removeAllListeners (channel : string) : M unit :=
  fun w => (Ok tt, mkWorld (effects w) (delete channel (ipc_events w))).

Definition listeners (channel : string) (w : World) : list Listener :=
  default [] (ipc_events w !! channel).

(** ** The module *)

(** The literal [0.9] denotes the binary64 number nearest to it. *)
Definition SCALE_NEW_WINDOW_FACTOR : float := 0x1.ccccccccccccdp-1%float.
Definition OFFSET_NEW_WINDOW : float := 50%float.

(** Placement of a new window; JavaScript numbers are binary64 floats. *)
Record Options : Type := mkOptions {
  x : float;
  y : float;
  width : float;
  height : float;
}.

Section ExternalLinks.

Context `{UrlModule} `{Config}.

(** In the fifth literal the source escapes the dots and the slash with a
    backslash; the string it denotes has none. *)
Definition ALWAYS_OPEN_IN_APP : list string :=
  [ "http://" +:+ server_host;
    "http://localhost";
    "http://calypso.localhost:3000/*";
    "https:/public-api.wordpress.com";
    "https://wordpress.com/wp-login.php";
    "http://127.0.0.1:41050/*" ].

Definition DONT_OPEN_IN_BROWSER : list string :=
  [ server_url;
    "https://public-api.wordpress.com/connect/" ].

Definition domainAndPathSame (first second : URL) : bool :=
  String.eqb (hostname first) (hostname second)
  && (String.eqb (pathname first) (pathname second)
      || String.eqb (pathname second) "/*").

(** The function returns its argument or [false]: [Some url] or [None]. *)
Definition isValidBrowserUrl (url : string) : M (option string) :=
  parsedUrl <-- lift (URL_new url) ;;
  if String.eqb (protocol parsedUrl) "http:" || String.eqb (protocol parsedUrl) "https:"
  then ret (Some url)
  else ret None.

(** Truthiness of what [isValidBrowserUrl] returns: a string is truthy
    unless it is empty. *)
Definition truthy (v : option string) : bool :=
  match v with
  | Some s => negb (String.eqb s "")
  | None => false
  end.

Definition openInBrowser (ev : nat) (url : string) : M unit :=
  v <-- isValidBrowserUrl url ;;
  (if truthy v
   then perform (log_info ("Using system default handler for URL: " +:+ url)) ;;;
        perform (shell_openExternal url)
   else ret tt) ;;;
  perform (event_preventDefault ev).

Definition replaceInternalCalypsoUrl (url : URL) : M URL :=
  if String.eqb (hostname url) server_host
  then perform (log_info "Replacing internal url with public url") ;;;
       ret (URL_set_port (URL_set_hostname url wordpress_host) "")
  else ret url.

(** *** The [will-navigate] listener

    The loop over [ALWAYS_OPEN_IN_APP] parses one entry per iteration and
    returns at the first entry that matches; [openInBrowser] is what
    follows the loop. *)
Fixpoint will_navigate_from (ev : nat) (url : string) (parsedUrl : URL)
    (entries : list string) : M unit :=
  match entries with
  | [] => openInBrowser ev url
  | entry :: rest =>
      alwaysOpenUrl <-- lift (URL_new entry) ;;
      if domainAndPathSame parsedUrl alwaysOpenUrl
      then ret tt
      else will_navigate_from ev url parsedUrl rest
  end.

Definition will_navigate (ev : nat) (url : string) : M unit :=
  parsedUrl <-- lift (URL_new url) ;;
  will_navigate_from ev url parsedUrl ALWAYS_OPEN_IN_APP.

(** *** The [new-window] listener

    The listener mutates [options] in place; here it returns the object
    as it is when the listener returns.  Nothing is assigned before a
    statement that can throw. *)
Definition shrink_and_offset (options : Options) : Options :=
  {| x := PrimFloat.add (x options) OFFSET_NEW_WINDOW;
     y := PrimFloat.add (y options) OFFSET_NEW_WINDOW;
     width := PrimFloat.mul (width options) SCALE_NEW_WINDOW_FACTOR;
     height := PrimFloat.mul (height options) SCALE_NEW_WINDOW_FACTOR |}.

Fixpoint new_window_from (ev : nat) (url : string) (parsedUrl : URL)
    (options : Options) (entries : list string) : M Options :=
  match entries with
  | [] =>
      parsedUrl' <-- replaceInternalCalypsoUrl parsedUrl ;;
      let openUrl := format parsedUrl' in
      openInBrowser ev openUrl ;;;
      ret options
  | entry :: rest =>
      dontOpenUrl <-- lift (URL_new entry) ;;
      if domainAndPathSame parsedUrl dontOpenUrl
      then perform (log_info ("Open in new window for " +:+ url)) ;;;
           ret (shrink_and_offset options)
      else new_window_from ev url parsedUrl options rest
  end.

Definition new_window (ev : nat) (url : string) (options : Options) : M Options :=
  parsedUrl <-- lift (URL_new url) ;;
  new_window_from ev url parsedUrl options DONT_OPEN_IN_BROWSER.

(** *** The [cannot-open-editor] listener *)

Definition extractRelativeEditorUrl (url : string) : M string :=
  parsed <-- lift (URL_new url) ;;
  match URL_searchParams_get parsed "redirect_to" with
  | Some redirect =>
      if negb (String.eqb redirect "")
      then parsedRedirect <-- lift (URL_new redirect) ;;
           ret (pathname parsedRedirect)
      else ret url
  | None => ret url
  end.

(** The listener of [request-site-response], registered by the listener
    below. *)
Definition request_site_response (info : Info) : M unit :=
  perform (log_info "Received state refresh for site: ") ;;;
  relative <-- extractRelativeEditorUrl (editorUrl info) ;;
  perform (webContents_send "navigate" (Path relative)).

(** The listener of [enable-site-option-response], registered by
    [enableSSOandContinue]. *)
Definition enable_site_option_response (info : Info) (status : string) : M unit :=
  ipc_removeAllListeners "enable-site-option-response" ;;;
  if String.eqb status "success"
  then perform (log_info "SSO enabled for site: ") ;;;
       ipc_on "request-site-response" (on_request_site_response info) ;;;
       perform (webContents_send "request-site" (SiteId (siteId info)))
  else perform (log_info "Failed to enable SSO for site: ").

Definition enableSSOandContinue (info : Info) : M unit :=
  perform (log_info "User selected 'Enable SSO and Continue' ") ;;;
  ipc_on "enable-site-option-response" (on_enable_site_option_response info) ;;;
  perform (webContents_send "enable-site-option" (EnableSiteOption (siteId info) "sso")).

Definition proceedInBrowser (ev : nat) (info : Info) : M unit :=
  perform (log_info "User selected 'Proceed in Browser'...") ;;;
  openInBrowser ev (editorUrl info).

Definition cancel : M unit :=
  perform (log_info "User selected 'Cancel'...").

Definition buttons (info : Info) : list string :=
  if isAdmin info
  then [ "Enable SSO and Continue"; "Proceed in Browser"; "Cancel" ]
  else [ "Proceed in Browser"; "Cancel" ].

Definition prompt (info : Info) (parsedURL : URL) : MessageBoxOptions :=
  {| mb_type := "info";
     mb_buttons := buttons info;
     mb_title := "Jetpack Authorization Required";
     mb_message :=
       "This feature requires that Secure Sign-On is enabled in the Jetpack settings of the site:"
       +:+ String "010"%char (String "010"%char "")
       +:+ URL_origin parsedURL;
     mb_detail :=
       "You may proceed after changing the site's Jetpack settings "
       +:+ "or you can proceed in an external browser." |}.

(** [dialog.showMessageBox(mainWindow, opts)]: the call is recorded, and
    [answer] is what the host does with it: the index of the button the
    user selects, or an exception. *)
Definition showMessageBox (opts : MessageBoxOptions) (answer : Result nat) : M nat :=
  perform (dialog_showMessageBox opts) ;;;
  lift answer.

(** The [try] block of [promptWpAdminAuth]. *)
Definition promptWpAdminAuth_try (ev : nat) (info : Info) (parsedURL : URL)
    (answer : Result nat) : M unit :=
  selected <-- showMessageBox (prompt info parsedURL) answer ;;
  match selected with
  | 0 => if isAdmin info then enableSSOandContinue info else proceedInBrowser ev info
  | 1 => if isAdmin info then proceedInBrowser ev info else cancel
  | 2 => cancel
  | _ => ret tt
  end ;;;
  if negb (isAdmin info && Nat.eqb selected 0)
  then perform showMySites ;;;
       perform (Settings_saveSetting LAST_LOCATION ("/stats/day/" +:+ hostname parsedURL))
  else ret tt.

Definition promptWpAdminAuth (ev : nat) (info : Info) (parsedURL : URL)
    (answer : Result nat) : M unit :=
  try_catch
    (promptWpAdminAuth_try ev info parsedURL answer)
    (fun error => perform (log_error "Failed to prompt for Jetpack authorization: ")).

(** The listener is [async]: [await delay( 300 )] suspends it between the
    parse of [origin] and the prompt.  Time is not modelled; the two parts
    run one after the other. *)
Definition cannot_open_editor (ev : nat) (info : Info) (answer : Result nat) : M unit :=
  perform (log_info "Cannot open editor for site: ") ;;;
  parsedURL <-- lift (URL_new (origin info)) ;;
  promptWpAdminAuth ev info parsedURL answer.

Definition jetpack_module_activate_status : M unit :=
  perform (log_info "Jetpack module activation status: ${info.status}: ").

(** *** The emitter *)

(** Messages arriving on the cross-process channel. *)
Inductive IpcMessage : Type :=
  | CannotOpenEditor (info : Info)
  | JetpackModuleActivateStatus (status message : string)
  | EnableSiteOptionResponse (status : string)
  | RequestSiteResponse.

Definition channel (msg : IpcMessage) : string :=
  match msg with
  | CannotOpenEditor _ => "cannot-open-editor"
  | JetpackModuleActivateStatus _ _ => "jetpack-module-activate-status"
  | EnableSiteOptionResponse _ => "enable-site-option-response"
  | RequestSiteResponse => "request-site-response"
  end.

(** An exception in an [async] listener rejects its promise and does not
    reach the emitter. *)
Definition async (m : M unit) : M unit :=
  try_catch m (fun e => perform (unhandledRejection e)).

(** A listener is only ever called with a message of the channel it was
    registered for. *)
Definition call (l : Listener) (ev : nat) (msg : IpcMessage)
    (answer : Result nat) : M unit :=
  match l, msg with
  | on_cannot_open_editor, CannotOpenEditor info =>
      async (cannot_open_editor ev info answer)
  | on_jetpack_module_activate_status, JetpackModuleActivateStatus _ _ =>
      async jetpack_module_activate_status
  | on_enable_site_option_response info, EnableSiteOptionResponse status =>
      enable_site_option_response info status
  | on_request_site_response info, RequestSiteResponse =>
      request_site_response info
  | _, _ => ret tt
  end.

Fixpoint call_all (ls : list Listener) (ev : nat) (msg : IpcMessage)
    (answer : Result nat) : M unit :=
  match ls with
  | [] => ret tt
  | l :: rest => call l ev msg answer ;;; call_all rest ev msg answer
  end.

(** [emit] calls the listeners that are registered when it starts, in
    order of registration, whatever they add or remove meanwhile. *)
Definition ipc_emit (ev : nat) (msg : IpcMessage) (answer : Result nat) : M unit :=
  fun w => call_all (listeners (channel msg) w) ev msg answer w.

(** The exported function registers the two listeners of the emitter
    (those of the window contents are [will_navigate] and [new_window]). *)
Definition module_exports : M unit :=
  ipc_on "cannot-open-editor" on_cannot_open_editor ;;;
  ipc_on "jetpack-module-activate-status" on_jetpack_module_activate_status.

(** *** Notions used to state the properties *)

(** The scheme test of [isValidBrowserUrl]. *)
Definition has_http_scheme (u : URL) : bool :=
  String.eqb (protocol u) "http:" || String.eqb (protocol u) "https:".

(** What the loop of either listener decides for a parsed URL and a
    policy list: [Ok true] at the first entry that matches, [Ok false]
    when the list is exhausted, and the exception of an entry that does
    not parse when the loop reaches it. *)
Fixpoint first_match (parsedUrl : URL) (entries : list string) : Result bool :=
  match entries with
  | [] => Ok false
  | entry :: rest =>
      match URL_new entry with
      | Ok entryUrl =>
          if domainAndPathSame parsedUrl entryUrl then Ok true
          else first_match parsedUrl rest
      | Throw e => Throw e
      end
  end.

(** An entry matches a URL when it parses and [domainAndPathSame] holds
    of the URL and the parsed entry, in this order. *)
Definition matches (parsedUrl : URL) (entry : string) : bool :=
  match URL_new entry with
  | Ok entryUrl => domainAndPathSame parsedUrl entryUrl
  | Throw _ => false
  end.

Definition parses (entry : string) : bool := is_Ok (URL_new entry).

(** The URLs handed to the external browser, in a list of calls. *)
Definition opened (es : list Effect) : list string :=
  flat_map (fun e => match e with shell_openExternal url => [url] | _ => [] end) es.

(** The arguments sent to the window contents on a channel. *)
Definition sent (channel : string) (es : list Effect) : list Payload :=
  flat_map (fun e => match e with
                     | webContents_send c arg => if String.eqb c channel then [arg] else []
                     | _ => []
                     end) es.

(** The number of times the default action of [ev] was suppressed. *)
Definition prevented (ev : nat) (es : list Effect) : nat :=
  length (List.filter
            (fun e => match e with event_preventDefault ev' => Nat.eqb ev' ev | _ => false end)
            es).

(** *** Notions used to state further properties *)

(** A string that [isValidBrowserUrl] accepts. *)
Definition is_http_url (url : string) : bool :=
  match URL_new url with
  | Ok u => has_http_scheme u
  | Throw _ => false
  end.

(** Whatever the world and whatever the result, [m] adds calls to the
    trace, removes none, and each call it adds satisfies [ok]. *)
Definition calls_only {A} (ok : Effect -> Prop) (m : M A) : Prop :=
  forall w, exists es,
    effects (snd (m w)) = (effects w ++ es)%list /\ Forall ok es.

(** [m] leaves the listener table as it finds it. *)
Definition keeps_listeners {A} (m : M A) : Prop :=
  forall w, ipc_events (snd (m w)) = ipc_events w.

(** The external browser is only given strings that parse with scheme
    http or https. *)
Definition browser_call_is_http (e : Effect) : Prop :=
  match e with
  | shell_openExternal url => is_http_url url = true
  | _ => True
  end.

(** The calls of a navigation listener for the event [ev]: the logger at
    info level, the browser with an http(s) URL, [preventDefault] of that
    event. *)
Definition navigation_call (ev : nat) (e : Effect) : Prop :=
  match e with
  | log_info _ => True
  | shell_openExternal url => is_http_url url = true
  | event_preventDefault ev' => ev' = ev
  | _ => False
  end.

(** The calls of the [cannot-open-editor] listener for the event [ev],
    the payload [info] and the parsed origin [parsedURL]. *)
Definition editor_call (ev : nat) (info : Info) (parsedURL : URL) (e : Effect) : Prop :=
  match e with
  | log_info _ | log_error _ | showMySites => True
  | dialog_showMessageBox opts => opts = prompt info parsedURL
  | shell_openExternal url => url = editorUrl info /\ is_http_url url = true
  | event_preventDefault ev' => ev' = ev
  | Settings_saveSetting key value =>
      key = LAST_LOCATION /\ value = "/stats/day/" +:+ hostname parsedURL
  | webContents_send c arg =>
      c = "enable-site-option" /\ arg = EnableSiteOption (siteId info) "sso"
  | unhandledRejection _ => False
  end.

(** The function of [promptWpAdminAuth] that a button label names. *)
Definition action (ev : nat) (info : Info) (label : string) : M unit :=
  if String.eqb label "Enable SSO and Continue" then enableSSOandContinue info
  else if String.eqb label "Proceed in Browser" then proceedInBrowser ev info
  else if String.eqb label "Cancel" then cancel
  else ret tt.

(** What [promptWpAdminAuth] does after the [switch]. *)
Definition resetLocation (parsedURL : URL) : M unit :=
  perform showMySites ;;;
  perform (Settings_saveSetting LAST_LOCATION ("/stats/day/" +:+ hostname parsedURL)).

Definition is_enable_listener (l : Listener) : bool :=
  match l with on_enable_site_option_response _ => true | _ => false end.

Definition is_request_listener (l : Listener) : bool :=
  match l with on_request_site_response _ => true | _ => false end.

(** A listener of [request-site-response] whose editor URL yields a path. *)
Definition can_navigate (l : Listener) : bool :=
  match l with
  | on_request_site_response info =>
      is_Ok (fst (extractRelativeEditorUrl (editorUrl info) initial_world))
  | _ => false
  end.

(** The [info] a listener of the two inner kinds has captured. *)
Definition captured (l : Listener) : option Info :=
  match l with
  | on_enable_site_option_response info | on_request_site_response info => Some info
  | _ => None
  end.

(** *** The earlier revision of the [cannot-open-editor] listener

    The second copy of the module in the sources differs from [index.js]
    in this listener only: it reads [origin] and [editorUrl] of the
    payload, offers the two buttons to every user, and logs nothing before
    the prompt. *)

Definition prompt_earlier (parsedURL : URL) : MessageBoxOptions :=
  {| mb_type := "info";
     mb_buttons := [ "Proceed in Browser"; "Cancel" ];
     mb_title := "Jetpack Authorization Required";
     mb_message :=
       "This feature requires that Secure Sign-On is enabled in the Jetpack settings of the site:"
       +:+ String "010"%char (String "010"%char "")
       +:+ URL_origin parsedURL;
     mb_detail :=
       "You may try again after changing the site's Jetpack settings "
       +:+ "(requires application re-start), "
       +:+ "or you can proceed in an external browser." |}.

Definition promptWpAdminAuth_earlier (ev : nat) (info : Info) (parsedURL : URL)
    (answer : Result nat) : M unit :=
  try_catch
    (selected <-- showMessageBox (prompt_earlier parsedURL) answer ;;
     match selected with
     | 0 => perform (log_info "User selected 'Proceed in Browser'...") ;;;
            openInBrowser ev (editorUrl info)
     | 1 => perform (log_info "User selected 'Cancel'...")
     | _ => ret tt
     end ;;;
     perform showMySites ;;;
     perform (Settings_saveSetting LAST_LOCATION ("/stats/day/" +:+ hostname parsedURL)))
    (fun error => perform (log_error "Failed to prompt for Jetpack authorization: ")).

Definition cannot_open_editor_earlier (ev : nat) (info : Info)
    (answer : Result nat) : M unit :=
  parsedURL <-- lift (URL_new (origin info)) ;;
  promptWpAdminAuth_earlier ev info parsedURL answer.

(** The calls that matter when the two revisions are compared: the info
    logs are dropped and the detail text of a dialog is blanked. *)
Definition essential (es : list Effect) : list Effect :=
  flat_map (fun e => match e with
                     | log_info _ => []
                     | dialog_showMessageBox o =>
                         [ dialog_showMessageBox
                             (mkMessageBox (mb_type o) (mb_buttons o) (mb_title o)
                                           (mb_message o) "") ]
                     | _ => [ e ]
                     end) es.

End ExternalLinks.

(** ** A sample implementation of the interfaces

    [Node.url_module] follows the URL Standard, which Node's [URL] class
    implements, on absolute URLs written in ASCII: a scheme, for the
    schemes with an authority a host and an optional decimal port, then a
    path, a query and a fragment.  Percent-encoding of unusual characters,
    dot segments, IPv6 literals, numeric-host rewriting and [file:] hosts
    are not implemented.  It serves to run the handlers on concrete inputs;
    the properties below are proved for every implementation. *)
Module Node.

Definition code (c : ascii) : nat := nat_of_ascii c.

Definition between (lo hi : nat) (c : ascii) : bool :=
  Nat.leb lo (code c) && Nat.leb (code c) hi.

Definition is_upper (c : ascii) : bool := between 65 90 c.
Definition is_alpha (c : ascii) : bool := is_upper c || between 97 122 c.
Definition is_digit (c : ascii) : bool := between 48 57 c.

Definition is_one_of (cs : string) (c : ascii) : bool :=
  existsb (Ascii.eqb c) (list_ascii_of_string cs).

Definition to_lower (c : ascii) : ascii :=
  if is_upper c then ascii_of_nat (code c + 32) else c.

Fixpoint lower (s : string) : string :=
  match s with
  | EmptyString => EmptyString
  | String c r => String (to_lower c) (lower r)
  end.

Fixpoint all (p : ascii -> bool) (s : string) : bool :=
  match s with
  | EmptyString => true
  | String c r => p c && all p r
  end.

(** The longest prefix without a character of [p], and what follows it. *)
Fixpoint break (p : ascii -> bool) (s : string) : string * string :=
  match s with
  | EmptyString => (EmptyString, EmptyString)
  | String c r =>
      if p c then (EmptyString, s)
      else let (a, b) := break p r in (String c a, b)
  end.

(** The parts before and after the last occurrence of [c]. *)
Fixpoint rsplit (c : ascii) (s : string) : option (string * string) :=
  match s with
  | EmptyString => None
  | String d r =>
      match rsplit c r with
      | Some (a, b) => Some (String d a, b)
      | None => if Ascii.eqb c d then Some (EmptyString, r) else None
      end
  end.

Definition tail (s : string) : string :=
  match s with
  | EmptyString => EmptyString
  | String _ r => r
  end.

Definition is_scheme_char (c : ascii) : bool :=
  is_alpha c || is_digit c || is_one_of "+-." c.

Definition split_scheme (s : string) : option (string * string) :=
  match s with
  | EmptyString => None
  | String c _ =>
      if is_alpha c
      then match break (fun c => negb (is_scheme_char c)) s with
           | (scheme, String ":" rest) => Some (lower scheme, rest)
           | _ => None
           end
      else None
  end.

(** The schemes with a host and a default port ([file] apart). *)
Definition default_port (scheme : string) : option string :=
  if String.eqb scheme "http" then Some "80"
  else if String.eqb scheme "https" then Some "443"
  else if String.eqb scheme "ftp" then Some "21"
  else if String.eqb scheme "ws" then Some "80"
  else if String.eqb scheme "wss" then Some "443"
  else None.

Definition is_special (scheme : string) : bool :=
  match default_port scheme with Some _ => true | None => false end.

Fixpoint strip_zeros (s : string) : string :=
  match s with
  | String "0" (String _ _ as r) => strip_zeros r
  | _ => s
  end.

Fixpoint decimal (acc : nat) (s : string) : nat :=
  match s with
  | EmptyString => acc
  | String c r => decimal (10 * acc + (code c - 48)) r
  end.

(** The [port] getter for the digits after the last colon of the
    authority: [None] when they are not a port. *)
Definition parse_port (scheme p : string) : option string :=
  if String.eqb p "" then Some ""
  else if all is_digit p
  then let p' := strip_zeros p in
       if Nat.leb (String.length p') 5 && Nat.leb (decimal 0 p') (256 * 256 - 1)
       then Some (if bool_decide (default_port scheme = Some p') then "" else p')
       else None
  else None.

Definition forbidden_in_host (c : ascii) : bool :=
  Nat.leb (code c) 32 || Nat.leb 127 (code c) || is_one_of "#/:<>?@[\]^|%" c.

Definition parse_host (special : bool) (h : string) : option string :=
  if all (fun c => negb (forbidden_in_host c)) h
  then if special
       then if String.eqb h "" then None else Some (lower h)
       else Some h
  else None.

(** User name, password, host name and port of an authority. *)
Definition parse_authority (scheme auth : string)
    : option (string * string * string * string) :=
  let (credentials, hostport) :=
    match rsplit "@" auth with
    | Some (a, b) => (a, b)
    | None => (EmptyString, auth)
    end in
  let (user, pass) := break (Ascii.eqb ":") credentials in
  let (host, digits) :=
    match rsplit ":" hostport with
    | Some (h, p) => (h, p)
    | None => (hostport, EmptyString)
    end in
  match parse_host (is_special scheme) host, parse_port scheme digits with
  | Some h, Some p => Some (user, tail pass, h, p)
  | _, _ => None
  end.

Fixpoint strip_slashes (s : string) : string :=
  match s with
  | String c r => if is_one_of "/\" c then strip_slashes r else s
  | EmptyString => s
  end.

Fixpoint slashes (s : string) : string :=
  match s with
  | EmptyString => EmptyString
  | String c r => String (if Ascii.eqb c "\" then "/"%char else c) (slashes r)
  end.

(** A query or fragment with its delimiter, as [search] and [hash] give
    it: empty when nothing follows the delimiter. *)
Definition delimited (s : string) : string :=
  if String.eqb (tail s) "" then "" else s.

Definition parse (input : string) : option URL :=
  match split_scheme input with
  | None => None
  | Some (scheme, rest) =>
      let (before_fragment, fragment) := break (Ascii.eqb "#") rest in
      let (before_query, query) := break (Ascii.eqb "?") before_fragment in
      if is_special scheme
      then
        let (auth, path) := break (is_one_of "/\") (strip_slashes before_query) in
        match parse_authority scheme auth with
        | Some (user, pass, host, p) =>
            Some (mkURL (scheme +:+ ":") user pass host p
                        (if String.eqb path "" then "/" else slashes path)
                        (delimited query) (delimited fragment))
        | None => None
        end
      else
        match before_query with
        | String "/" (String "/" r) =>
            let (auth, path) := break (Ascii.eqb "/") r in
            match parse_authority scheme auth with
            | Some (user, pass, host, p) =>
                Some (mkURL (scheme +:+ ":") user pass host p path
                            (delimited query) (delimited fragment))
            | None => None
            end
        | _ =>
            Some (mkURL (scheme +:+ ":") "" "" "" "" before_query
                        (delimited query) (delimited fragment))
        end
  end.

Definition new (input : string) : Result URL :=
  match parse input with
  | Some u => Ok u
  | None => Throw (ERR_INVALID_URL input)
  end.

Definition scheme_of (u : URL) : string :=
  fst (break (Ascii.eqb ":") (protocol u)).

Definition with_port (p : string) : string :=
  if String.eqb p "" then "" else ":" +:+ p.

Definition get_origin (u : URL) : string :=
  if is_special (scheme_of u)
  then protocol u +:+ "//" +:+ hostname u +:+ with_port (port u)
  else "null".

Definition userinfo (u : URL) : string :=
  if String.eqb (username u) "" && String.eqb (password u) "" then ""
  else username u
       +:+ (if String.eqb (password u) "" then "" else ":" +:+ password u)
       +:+ "@".

(** [format] of a URL object: its serialization. *)
Definition serialize (u : URL) : string :=
  protocol u
  +:+ (if String.eqb (hostname u) "" then ""
       else "//" +:+ userinfo u +:+ hostname u +:+ with_port (port u))
  +:+ pathname u +:+ search u +:+ hash u.

(** The [hostname] setter: the value up to a path, query or fragment
    delimiter is parsed as a host; nothing changes when it has a colon, is
    not a host, or the URL has no host. *)
Definition set_hostname (u : URL) (value : string) : URL :=
  let special := is_special (scheme_of u) in
  let (h, _) := break (is_one_of (if special then "/\?#" else "/?#")) value in
  if String.eqb (hostname u) "" && negb special then u
  else match parse_host special h with
       | Some h' => mkURL (protocol u) (username u) (password u) h' (port u)
                          (pathname u) (search u) (hash u)
       | None => u
       end.

(** The [port] setter: the empty string removes the port; otherwise the
    leading digits are the new port. *)
Definition set_port (u : URL) (value : string) : URL :=
  let (digits, _) := break (fun c => negb (is_digit c)) value in
  if String.eqb (hostname u) "" then u
  else if String.eqb digits "" && negb (String.eqb value "") then u
  else match parse_port (scheme_of u) digits with
       | Some p => mkURL (protocol u) (username u) (password u) (hostname u) p
                         (pathname u) (search u) (hash u)
       | None => u
       end.

Definition hex (c : ascii) : option nat :=
  if is_digit c then Some (code c - 48)
  else if between 65 70 c then Some (code c - 55)
  else if between 97 102 c then Some (code c - 87)
  else None.

(** Decoding of a name or value of a query: [+] is a space and [%XY] the
    byte XY. *)
Fixpoint decode (s : string) : string :=
  match s with
  | EmptyString => EmptyString
  | String c rest =>
      match c, rest with
      | "%"%char, String a (String b rest') =>
          match hex a, hex b with
          | Some h, Some l => String (ascii_of_nat (16 * h + l)) (decode rest')
          | _, _ => String c (decode rest)
          end
      | "+"%char, _ => String " " (decode rest)
      | _, _ => String c (decode rest)
      end
  end.

(** The value of the first pair named [name] among the pairs of a query,
    which are separated by [&]. *)
Fixpoint lookup_pair (fuel : nat) (name query : string) : option string :=
  match fuel with
  | 0 => None
  | S fuel' =>
      let (pair, more) := break (Ascii.eqb "&") query in
      let (k, v) := break (Ascii.eqb "=") pair in
      if negb (String.eqb pair "") && String.eqb (decode k) name
      then Some (decode (tail v))
      else match more with
           | EmptyString => None
           | String _ more' => lookup_pair fuel' name more'
           end
  end.

Definition searchParams_get (u : URL) (name : string) : option string :=
  lookup_pair (S (String.length (search u))) name (tail (search u)).

Definition url_module : UrlModule :=
  {| URL_new := new;
     URL_set_hostname := set_hostname;
     URL_set_port := set_port;
     URL_origin := get_origin;
     URL_searchParams_get := searchParams_get;
     format := serialize;
     URL_new_empty := eq_refl |}.

(** A sample configuration. *)
Definition config : Config :=
  {| server_host := "127.0.0.1";
     server_url := "http://127.0.0.1:41050";
     wordpress_host := "wordpress.com";
     wordpress_url := "https://wordpress.com";
     LAST_LOCATION := "last-location" |}.

(** A configuration whose server host and URL are left empty. *)
Definition config_unset : Config :=
  {| server_host := "";
     server_url := "";
     wordpress_host := "wordpress.com";
     wordpress_url := "https://wordpress.com";
     LAST_LOCATION := "last-location" |}.

End Node.

(** * Properties *)

Section Properties.

Context `{UrlModule} `{Config}.

(** ** Running the monad *)

Lemma record_record (es1 es2 : list Effect) (w : World) :
  record es2 (record es1 w) = record (es1 ++ es2) w.
Proof. unfold record. cbn. by rewrite app_assoc. Qed.

Lemma bind_Ok {A B} (m : M A) (k : A -> M B) (w w' : World) (a : A) :
  m w = (Ok a, w') -> bind m k w = k a w'.
Proof. intros Hm. unfold bind. by rewrite Hm. Qed.

Lemma bind_Throw {A B} (m : M A) (k : A -> M B) (w w' : World) (e : Exn) :
  m w = (Throw e, w') -> bind m k w = (Throw e, w').
Proof. intros Hm. unfold bind. by rewrite Hm. Qed.

Lemma has_http_scheme_true (u : URL) :
  has_http_scheme u = true <-> protocol u = "http:" \/ protocol u = "https:".
Proof.
  unfold has_http_scheme. rewrite orb_true_iff, !String.eqb_eq. tauto.
Qed.

Lemma has_http_scheme_false (u : URL) :
  has_http_scheme u = false <-> protocol u <> "http:" /\ protocol u <> "https:".
Proof.
  unfold has_http_scheme. rewrite orb_false_iff, !String.eqb_neq. tauto.
Qed.

Lemma isValidBrowserUrl_Ok (url : string) (u : URL) (w : World) :
  URL_new url = Ok u ->
  isValidBrowserUrl url w = (Ok (if has_http_scheme u then Some url else None), w).
Proof.
  intros Hu. unfold isValidBrowserUrl, bind, lift. rewrite Hu.
  fold (has_http_scheme u). by destruct (has_http_scheme u).
Qed.

Lemma isValidBrowserUrl_Throw (url : string) (e : Exn) (w : World) :
  URL_new url = Throw e -> isValidBrowserUrl url w = (Throw e, w).
Proof. intros Hu. unfold isValidBrowserUrl, bind, lift. by rewrite Hu. Qed.

(** A string that parses is not empty, hence truthy. *)
Lemma parsed_nonempty (url : string) (u : URL) :
  URL_new url = Ok u -> String.eqb url "" = false.
Proof.
  intros Hu. apply String.eqb_neq. intros ->.
  rewrite URL_new_empty in Hu. discriminate.
Qed.

(** ** The URL classifier *)

(** C4. [domainAndPathSame a b] holds exactly when the host names are
    equal and the paths are equal or the path of [b] is the wildcard
    [/*].  The wildcard counts on the second argument only: with one host
    name, path [/*] against path [/foo] is false and [/foo] against [/*]
    is true. *)
Theorem domainAndPathSame_iff :
  (forall a b : URL,
      domainAndPathSame a b = true <->
      hostname a = hostname b /\ (pathname a = pathname b \/ pathname b = "/*"))
  /\ (forall a b : URL,
        hostname a = hostname b -> pathname a = "/*" -> pathname b = "/foo" ->
        domainAndPathSame a b = false /\ domainAndPathSame b a = true).
Proof.
  assert (Hiff : forall a b : URL,
             domainAndPathSame a b = true <->
             hostname a = hostname b /\ (pathname a = pathname b \/ pathname b = "/*")).
  { intros a b. unfold domainAndPathSame.
    rewrite andb_true_iff, orb_true_iff, !String.eqb_eq. tauto. }
  split; [exact Hiff |].
  intros a b Hhost Ha Hb. split.
  - apply not_true_is_false. rewrite Hiff, Ha, Hb.
    intros [_ [Heq | Heq]]; discriminate.
  - apply Hiff. split; [done | by right].
Qed.

(** C1, as the code has it.  When the string parses and the scheme is
    http or https, [isValidBrowserUrl] returns the string itself, which is
    truthy; when it parses with another scheme the result is [false]; when
    it does not parse, the exception of the parser leaves
    [isValidBrowserUrl].  The world is never changed. *)
Theorem isValidBrowserUrl_cases (url : string) (w : World) :
  (forall u, URL_new url = Ok u ->
             protocol u = "http:" \/ protocol u = "https:" ->
             isValidBrowserUrl url w = (Ok (Some url), w) /\ truthy (Some url) = true)
  /\ (forall u, URL_new url = Ok u ->
                protocol u <> "http:" -> protocol u <> "https:" ->
                isValidBrowserUrl url w = (Ok None, w))
  /\ (forall e, URL_new url = Throw e ->
                isValidBrowserUrl url w = (Throw e, w)).
Proof.
  split; [| split].
  - intros u Hu Hp. rewrite (isValidBrowserUrl_Ok _ _ _ Hu).
    apply has_http_scheme_true in Hp. rewrite Hp. split; [done |].
    cbn. by rewrite (parsed_nonempty _ _ Hu).
  - intros u Hu Hp1 Hp2. rewrite (isValidBrowserUrl_Ok _ _ _ Hu).
    by rewrite (proj2 (has_http_scheme_false u) (conj Hp1 Hp2)).
  - intros e He. by apply isValidBrowserUrl_Throw.
Qed.

Lemma openInBrowser_Ok (ev : nat) (url : string) (u : URL) (w : World) :
  URL_new url = Ok u ->
  openInBrowser ev url w =
  (Ok tt,
   record ((if has_http_scheme u
            then [ log_info ("Using system default handler for URL: " +:+ url);
                   shell_openExternal url ]
            else []) ++ [ event_preventDefault ev ]) w).
Proof.
  intros Hu. unfold openInBrowser.
  rewrite (bind_Ok _ _ _ _ _ (isValidBrowserUrl_Ok _ _ w Hu)).
  destruct (has_http_scheme u); cbn.
  - rewrite (parsed_nonempty _ _ Hu). cbn. unfold bind, perform. cbn.
    by rewrite !record_record.
  - unfold bind, perform, ret. cbn. done.
Qed.

Lemma openInBrowser_Throw (ev : nat) (url : string) (e : Exn) (w : World) :
  URL_new url = Throw e -> openInBrowser ev url w = (Throw e, w).
Proof.
  intros Hu. unfold openInBrowser.
  by rewrite (bind_Throw _ _ _ _ _ (isValidBrowserUrl_Throw _ _ w Hu)).
Qed.

(** C2, as the code has it.  For a string that parses, [openInBrowser]
    suppresses the default action of the event once, and before that hands
    the string to the external browser exactly when [isValidBrowserUrl]
    returns a truthy value, that is when the scheme is http or https.  For
    a string that does not parse, the exception leaves [openInBrowser]
    before anything is done: the default action is not suppressed. *)
Theorem openInBrowser_cases (ev : nat) (url : string) (w : World) :
  (forall u, URL_new url = Ok u ->
     exists v,
       isValidBrowserUrl url w = (Ok v, w)
       /\ (truthy v = true <-> protocol u = "http:" \/ protocol u = "https:")
       /\ openInBrowser ev url w =
          (Ok tt,
           record ((if truthy v
                    then [ log_info ("Using system default handler for URL: " +:+ url);
                           shell_openExternal url ]
                    else []) ++ [ event_preventDefault ev ]) w))
  /\ (forall e, URL_new url = Throw e ->
                openInBrowser ev url w = (Throw e, w)).
Proof.
  split.
  - intros u Hu. exists (if has_http_scheme u then Some url else None).
    split; [by apply isValidBrowserUrl_Ok |].
    rewrite (openInBrowser_Ok _ _ _ _ Hu), <- has_http_scheme_true.
    destruct (has_http_scheme u); cbn.
    + rewrite (parsed_nonempty _ _ Hu). cbn. done.
    + split; [| done]. split; discriminate.
  - intros e He. by apply openInBrowser_Throw.
Qed.

(** ** The navigation listeners *)

(** The loop of [will-navigate] and what follows it, by the decision of
    the loop. *)
Lemma will_navigate_from_first_match (ev : nat) (url : string) (u : URL)
    (entries : list string) (w : World) :
  will_navigate_from ev url u entries w =
  match first_match u entries with
  | Ok true => (Ok tt, w)
  | Ok false => openInBrowser ev url w
  | Throw e => (Throw e, w)
  end.
Proof.
  induction entries as [| entry rest IH]; cbn; [done |].
  unfold bind, lift. destruct (URL_new entry) as [entryUrl | e]; [| done].
  destruct (domainAndPathSame u entryUrl); [done | exact IH].
Qed.

(** The same for [new-window]; after the loop comes the listener run on
    the empty list. *)
Lemma new_window_from_first_match (ev : nat) (url : string) (u : URL)
    (options : Options) (entries : list string) (w : World) :
  new_window_from ev url u options entries w =
  match first_match u entries with
  | Ok true =>
      (Ok (shrink_and_offset options),
       record [ log_info ("Open in new window for " +:+ url) ] w)
  | Ok false => new_window_from ev url u options [] w
  | Throw e => (Throw e, w)
  end.
Proof.
  induction entries as [| entry rest IH]; [done |].
  cbn [new_window_from first_match].
  unfold bind at 1. unfold lift. destruct (URL_new entry) as [entryUrl | e]; [| done].
  destruct (domainAndPathSame u entryUrl); [done | exact IH].
Qed.

(** When every entry parses, the loop finds a match exactly when some
    entry matches. *)
Lemma first_match_existsb (u : URL) (entries : list string) :
  forallb parses entries = true ->
  first_match u entries = Ok (existsb (matches u) entries).
Proof.
  induction entries as [| entry rest IH]; cbn; [done |].
  unfold parses, matches. intros [Hentry Hrest]%andb_true_iff.
  destruct (URL_new entry) as [entryUrl | e]; [| discriminate].
  destruct (domainAndPathSame u entryUrl); [done | by apply IH].
Qed.

(** The loop stops at an entry that matches as soon as the entries before
    it parse, whatever comes after it. *)
Lemma first_match_at (u : URL) (before : list string) (entry : string)
    (after : list string) :
  forallb parses before = true ->
  matches u entry = true ->
  first_match u (before ++ entry :: after)%list = Ok true.
Proof.
  intros Hbefore Hentry.
  induction before as [| b before IH]; cbn.
  - unfold matches in Hentry.
    destruct (URL_new entry) as [entryUrl | e]; [| discriminate].
    by rewrite Hentry.
  - cbn in Hbefore. apply andb_true_iff in Hbefore as [Hb Hrest].
    unfold parses in Hb. destruct (URL_new b) as [bUrl | e]; [| discriminate].
    destruct (domainAndPathSame u bUrl); [done | by apply IH].
Qed.

Lemma will_navigate_parsed (ev : nat) (url : string) (u : URL) (w : World) :
  URL_new url = Ok u ->
  will_navigate ev url w = will_navigate_from ev url u ALWAYS_OPEN_IN_APP w.
Proof. intros Hu. unfold will_navigate, bind, lift. by rewrite Hu. Qed.

Lemma new_window_parsed (ev : nat) (url : string) (u : URL) (options : Options)
    (w : World) :
  URL_new url = Ok u ->
  new_window ev url options w = new_window_from ev url u options DONT_OPEN_IN_BROWSER w.
Proof. intros Hu. unfold new_window, bind, lift. by rewrite Hu. Qed.

(** C3. On [will-navigate] for a URL that parses: when some entry of the
    Always-Open-In-App list matches the host and path, the entries before
    it being URLs, the listener does nothing (the default navigation is
    not suppressed, no browser is opened); when the entries are URLs and
    none matches, the default navigation is suppressed once and the URL is
    handed to the external browser, once, exactly when its scheme is http
    or https. *)
Theorem will_navigate_policy (ev : nat) (url : string) (u : URL) (w : World) :
  URL_new url = Ok u ->
  (forall (before : list string) (entry : string) (after : list string),
      ALWAYS_OPEN_IN_APP = (before ++ entry :: after)%list ->
      forallb parses before = true ->
      matches u entry = true ->
      will_navigate ev url w = (Ok tt, w))
  /\ (forallb parses ALWAYS_OPEN_IN_APP = true ->
      existsb (matches u) ALWAYS_OPEN_IN_APP = false ->
      exists es,
        will_navigate ev url w = (Ok tt, record es w)
        /\ prevented ev es = 1
        /\ (protocol u = "http:" \/ protocol u = "https:" -> opened es = [url])
        /\ (protocol u <> "http:" /\ protocol u <> "https:" -> opened es = [])).
Proof.
  intros Hu.
  rewrite (will_navigate_parsed _ _ _ _ Hu), will_navigate_from_first_match.
  split.
  - intros before entry after -> Hbefore Hentry.
    by rewrite (first_match_at _ _ _ _ Hbefore Hentry).
  - intros Hparse Hnone. rewrite (first_match_existsb _ _ Hparse), Hnone.
    rewrite (openInBrowser_Ok _ _ _ _ Hu). eexists. split; [done |].
    rewrite <- has_http_scheme_true, <- has_http_scheme_false.
    destruct (has_http_scheme u);
      cbn [app opened flat_map prevented List.filter length];
      rewrite Nat.eqb_refl; cbn [length].
    + split; [reflexivity |]. split; [reflexivity | discriminate].
    + split; [reflexivity |]. split; [discriminate | reflexivity].
Qed.

(** C6. On [new-window] for a URL that parses: when some entry of the
    Dont-Open-In-Browser list matches the host and path, the entries
    before it being URLs, the options become [x + 50], [y + 50],
    [width * 0.9] and [height * 0.9] in the arithmetic of JavaScript
    numbers, the external browser is not called and the default action is
    not suppressed.  The factor is written [0x1.ccccccccccccdp-1]: the
    binary64 number that the literal 0.9 denotes, which is 9 divided by 10
    rounded to nearest. *)
Theorem new_window_listed (ev : nat) (url : string) (u : URL) (options : Options)
    (w : World) (before : list string) (entry : string) (after : list string) :
  URL_new url = Ok u ->
  DONT_OPEN_IN_BROWSER = (before ++ entry :: after)%list ->
  forallb parses before = true ->
  matches u entry = true ->
  exists options' es,
    new_window ev url options w = (Ok options', record es w)
    /\ x options' = PrimFloat.add (x options) 50
    /\ y options' = PrimFloat.add (y options) 50
    /\ width options' = PrimFloat.mul (width options) 0x1.ccccccccccccdp-1
    /\ height options' = PrimFloat.mul (height options) 0x1.ccccccccccccdp-1
    /\ 0x1.ccccccccccccdp-1%float = PrimFloat.div 9 10
    /\ opened es = []
    /\ prevented ev es = 0.
Proof.
  intros Hu Hlist Hbefore Hentry.
  rewrite (new_window_parsed _ _ _ _ _ Hu), new_window_from_first_match, Hlist,
    (first_match_at _ _ _ _ Hbefore Hentry).
  eexists _, _. split; [reflexivity |]. repeat split; reflexivity.
Qed.

Lemma replaceInternalCalypsoUrl_internal (u : URL) (w : World) :
  hostname u = server_host ->
  replaceInternalCalypsoUrl u w =
  (Ok (URL_set_port (URL_set_hostname u wordpress_host) ""),
   record [ log_info "Replacing internal url with public url" ] w).
Proof.
  intros Hhost. unfold replaceInternalCalypsoUrl.
  by rewrite (proj2 (String.eqb_eq _ _) Hhost).
Qed.

Lemma replaceInternalCalypsoUrl_other (u : URL) (w : World) :
  hostname u <> server_host -> replaceInternalCalypsoUrl u w = (Ok u, w).
Proof.
  intros Hhost. unfold replaceInternalCalypsoUrl.
  by rewrite (proj2 (String.eqb_neq _ _) Hhost).
Qed.

(** C7. On [new-window] for a URL that parses and that no entry of the
    Dont-Open-In-Browser list matches: when the host name is the internal
    server host, [replaceInternalCalypsoUrl] sets the host name to the
    public host and the port to the empty string, and the listener formats
    the rewritten URL and passes it to [openInBrowser]; when the host name
    differs, [replaceInternalCalypsoUrl] returns the URL unchanged, and it
    is formatted and passed to [openInBrowser] as it is. *)
Theorem new_window_not_listed (ev : nat) (url : string) (u : URL)
    (options : Options) (w : World) :
  URL_new url = Ok u ->
  forallb parses DONT_OPEN_IN_BROWSER = true ->
  existsb (matches u) DONT_OPEN_IN_BROWSER = false ->
  (hostname u = server_host ->
   let rewritten := URL_set_port (URL_set_hostname u wordpress_host) "" in
   let w' := record [ log_info "Replacing internal url with public url" ] w in
   replaceInternalCalypsoUrl u w = (Ok rewritten, w')
   /\ new_window ev url options w =
      (openInBrowser ev (format rewritten) ;;; ret options) w')
  /\ (hostname u <> server_host ->
      replaceInternalCalypsoUrl u w = (Ok u, w)
      /\ new_window ev url options w =
         (openInBrowser ev (format u) ;;; ret options) w).
Proof.
  intros Hu Hparse Hlisted.
  rewrite (new_window_parsed _ _ _ _ _ Hu), new_window_from_first_match,
    (first_match_existsb _ _ Hparse), Hlisted.
  cbn [new_window_from]. split; intros Hhost.
  - cbn zeta. rewrite (replaceInternalCalypsoUrl_internal _ w Hhost).
    split; [done |]. unfold bind at 1.
    by rewrite (replaceInternalCalypsoUrl_internal _ w Hhost).
  - rewrite (replaceInternalCalypsoUrl_other _ w Hhost).
    split; [done |]. unfold bind at 1.
    by rewrite (replaceInternalCalypsoUrl_other _ w Hhost).
Qed.

(** ** The authorization prompt *)




(** C8, as the code has it.  For a signal with [isAdmin] false the dialog
    offers the two buttons Proceed in Browser and Cancel.  When the user
    selects the first and the editor URL parses with scheme http or https,
    the external browser is called with the editor URL as it came, then
    the window is sent to My Sites and the last location is saved as
    [/stats/day/] followed by the host name of the origin. *)
Theorem non_admin_proceeds_in_browser (ev : nat) (info : Info) (po eu : URL)
    (w : World) :
  isAdmin info = false ->
  URL_new (origin info) = Ok po ->
  URL_new (editorUrl info) = Ok eu ->
  protocol eu = "http:" \/ protocol eu = "https:" ->
  mb_buttons (prompt info po) = [ "Proceed in Browser"; "Cancel" ]
  /\ cannot_open_editor ev info (Ok 0) w =
     (Ok tt,
      record [ log_info "Cannot open editor for site: ";
               dialog_showMessageBox (prompt info po);
               log_info "User selected 'Proceed in Browser'...";
               log_info ("Using system default handler for URL: " +:+ editorUrl info);
               shell_openExternal (editorUrl info);
               event_preventDefault ev;
               showMySites;
               Settings_saveSetting LAST_LOCATION ("/stats/day/" +:+ hostname po) ] w).
Proof.
  intros Hadmin Hpo Heu Hp. split.
  { unfold prompt, buttons. cbn [mb_buttons]. by rewrite Hadmin. }
  unfold cannot_open_editor, promptWpAdminAuth, try_catch, promptWpAdminAuth_try.
  unfold showMessageBox, proceedInBrowser.
  unfold bind, lift, perform, ret.
  rewrite Hpo, Hadmin. cbn [negb andb].
  rewrite (openInBrowser_Ok _ _ _ _ Heu).
  apply has_http_scheme_true in Hp. rewrite Hp.
  by rewrite !record_record.
Qed.


(** The listener of [request-site-response] does not touch the listener
    table: it stays registered after it has run. *)
Lemma request_site_response_keeps_listeners (info : Info) (w : World) :
  ipc_events (snd (request_site_response info w)) = ipc_events w.
Proof.
  unfold request_site_response, extractRelativeEditorUrl.
  unfold bind, lift, perform, ret. cbn [record ipc_events snd].
  destruct (URL_new (editorUrl info)) as [parsed | e]; [| done].
  destruct (URL_searchParams_get parsed "redirect_to") as [redirect |]; [| done].
  destruct (negb (String.eqb redirect "")); [| done].
  by destruct (URL_new redirect).
Qed.

(** The listener of [enable-site-option-response] removes every listener
    of its channel. *)
Lemma enable_site_option_response_removes (info : Info) (status : string)
    (w : World) :
  listeners "enable-site-option-response"
            (snd (enable_site_option_response info status w)) = [].
Proof.
  unfold enable_site_option_response, listeners.
  unfold bind, ipc_removeAllListeners, ipc_on, perform.
  destruct (String.eqb status "success"); cbn [snd record ipc_events].
  - rewrite lookup_insert_ne by done. by rewrite lookup_delete_eq.
  - by rewrite lookup_delete_eq.
Qed.

End Properties.

(** * Further properties *)

Section FurtherProperties.

Context `{UrlModule} `{Config}.

(** ** Footprints: a small logic of the calls a computation adds *)

Lemma calls_only_ret {A} (ok : Effect -> Prop) (a : A) : calls_only ok (ret a).
Proof. intros w. exists []. cbn. by rewrite app_nil_r. Qed.

Lemma calls_only_lift {A} (ok : Effect -> Prop) (r : Result A) :
  calls_only ok (lift r).
Proof. intros w. exists []. cbn. by rewrite app_nil_r. Qed.

Lemma calls_only_perform (ok : Effect -> Prop) (e : Effect) :
  ok e -> calls_only ok (perform e).
Proof. intros He w. exists [e]. cbn. split; [done | by constructor]. Qed.

Lemma calls_only_ipc_on (ok : Effect -> Prop) (c : string) (l : Listener) :
  calls_only ok (ipc_on c l).
Proof. intros w. exists []. cbn. by rewrite app_nil_r. Qed.

Lemma calls_only_ipc_removeAllListeners (ok : Effect -> Prop) (c : string) :
  calls_only ok (ipc_removeAllListeners c).
Proof. intros w. exists []. cbn. by rewrite app_nil_r. Qed.

Lemma calls_only_bind {A B} (ok : Effect -> Prop) (m : M A) (k : A -> M B) :
  calls_only ok m -> (forall a, calls_only ok (k a)) -> calls_only ok (bind m k).
Proof.
  intros Hm Hk w. unfold bind.
  destruct (Hm w) as (es1 & H1 & F1).
  destruct (m w) as [[a | e] w1]; cbn in H1.
  - destruct (Hk a w1) as (es2 & H2 & F2).
    exists (es1 ++ es2)%list. rewrite H2, H1, app_assoc.
    split; [done | by apply Forall_app].
  - by exists es1.
Qed.

Lemma calls_only_try_catch {A} (ok : Effect -> Prop) (m : M A) (h : Exn -> M A) :
  calls_only ok m -> (forall e, calls_only ok (h e)) -> calls_only ok (try_catch m h).
Proof.
  intros Hm Hh w. unfold try_catch.
  destruct (Hm w) as (es1 & H1 & F1).
  destruct (m w) as [[a | e] w1]; cbn in H1.
  - by exists es1.
  - destruct (Hh e w1) as (es2 & H2 & F2).
    exists (es1 ++ es2)%list. rewrite H2, H1, app_assoc.
    split; [done | by apply Forall_app].
Qed.

Lemma calls_only_weaken {A} (ok ok' : Effect -> Prop) (m : M A) :
  (forall e, ok e -> ok' e) -> calls_only ok m -> calls_only ok' m.
Proof.
  intros Himp Hm w. destruct (Hm w) as (es & Hes & Hok).
  exists es. split; [done |]. eapply Forall_impl; eauto.
Qed.

Lemma keeps_listeners_ret {A} (a : A) : keeps_listeners (ret a).
Proof. by intros w. Qed.

Lemma keeps_listeners_lift {A} (r : Result A) : keeps_listeners (lift r).
Proof. by intros w. Qed.

Lemma keeps_listeners_perform (e : Effect) : keeps_listeners (perform e).
Proof. by intros w. Qed.

Lemma keeps_listeners_bind {A B} (m : M A) (k : A -> M B) :
  keeps_listeners m -> (forall a, keeps_listeners (k a)) -> keeps_listeners (bind m k).
Proof.
  intros Hm Hk w. unfold bind. specialize (Hm w).
  destruct (m w) as [[a | e] w1]; cbn in Hm; [| done].
  by rewrite Hk.
Qed.

Create HintDb footprint discriminated.

#[local] Hint Resolve calls_only_ret calls_only_lift calls_only_ipc_on
  calls_only_ipc_removeAllListeners keeps_listeners_ret keeps_listeners_lift
  keeps_listeners_perform : footprint.

Lemma is_http_url_Ok (url : string) (u : URL) :
  URL_new url = Ok u -> is_http_url url = has_http_scheme u.
Proof. intros Hu. unfold is_http_url. by rewrite Hu. Qed.

Lemma openInBrowser_footprint (ev : nat) (url : string) :
  calls_only (navigation_call ev) (openInBrowser ev url)
  /\ keeps_listeners (openInBrowser ev url).
Proof.
  split; intros w; destruct (URL_new url) as [u | e] eqn:Hu.
  - rewrite (openInBrowser_Ok _ _ _ _ Hu). eexists. split; [reflexivity |].
    destruct (has_http_scheme u) eqn:Hhttp; cbn [app].
    + repeat constructor. cbn. by rewrite (is_http_url_Ok _ _ Hu).
    + by repeat constructor.
  - rewrite (openInBrowser_Throw _ _ _ _ Hu). exists []. cbn.
    by rewrite app_nil_r.
  - by rewrite (openInBrowser_Ok _ _ _ _ Hu).
  - by rewrite (openInBrowser_Throw _ _ _ _ Hu).
Qed.

Lemma replaceInternalCalypsoUrl_footprint (ev : nat) (u : URL) :
  calls_only (navigation_call ev) (replaceInternalCalypsoUrl u)
  /\ keeps_listeners (replaceInternalCalypsoUrl u).
Proof.
  unfold replaceInternalCalypsoUrl.
  destruct (String.eqb (hostname u) server_host); split;
    auto with footprint.
  - apply calls_only_bind; [by apply calls_only_perform | auto with footprint].
  - apply keeps_listeners_bind; auto with footprint.
Qed.

Lemma will_navigate_from_footprint (ev : nat) (url : string) (u : URL)
    (entries : list string) :
  calls_only (navigation_call ev) (will_navigate_from ev url u entries)
  /\ keeps_listeners (will_navigate_from ev url u entries).
Proof.
  induction entries as [| entry rest [IHc IHk]]; cbn [will_navigate_from].
  - apply openInBrowser_footprint.
  - split.
    + apply calls_only_bind; [auto with footprint |].
      intros e. destruct (domainAndPathSame u e); auto with footprint.
    + apply keeps_listeners_bind; [auto with footprint |].
      intros e. destruct (domainAndPathSame u e); auto with footprint.
Qed.

Lemma new_window_from_footprint (ev : nat) (url : string) (u : URL)
    (options : Options) (entries : list string) :
  calls_only (navigation_call ev) (new_window_from ev url u options entries)
  /\ keeps_listeners (new_window_from ev url u options entries).
Proof.
  induction entries as [| entry rest [IHc IHk]]; cbn [new_window_from].
  - split.
    + apply calls_only_bind; [apply (replaceInternalCalypsoUrl_footprint ev) |].
      intros u'. apply calls_only_bind; [apply openInBrowser_footprint |].
      auto with footprint.
    + apply keeps_listeners_bind; [apply (replaceInternalCalypsoUrl_footprint ev) |].
      intros u'. apply keeps_listeners_bind; [apply openInBrowser_footprint |].
      auto with footprint.
  - split.
    + apply calls_only_bind; [auto with footprint |].
      intros e. destruct (domainAndPathSame u e); [| done].
      apply calls_only_bind; [by apply calls_only_perform | auto with footprint].
    + apply keeps_listeners_bind; [auto with footprint |].
      intros e. destruct (domainAndPathSame u e); [| done].
      apply keeps_listeners_bind; auto with footprint.
Qed.

(** X1. The navigation listeners stay within their remit, whatever the
    URL, the options and the world, and whether they return or throw: they
    call only the logger at info level, the external browser with a string
    that parses with scheme http or https, and [preventDefault] of the
    event they were given; they never show a dialog, write a setting, send
    to the window contents or touch the listener table. *)
Theorem navigation_listeners_footprint (ev : nat) (url : string) (options : Options) :
  calls_only (navigation_call ev) (will_navigate ev url)
  /\ keeps_listeners (will_navigate ev url)
  /\ calls_only (navigation_call ev) (new_window ev url options)
  /\ keeps_listeners (new_window ev url options).
Proof.
  unfold will_navigate, new_window. repeat split.
  - apply calls_only_bind; [auto with footprint |].
    intros u. apply will_navigate_from_footprint.
  - apply keeps_listeners_bind; [auto with footprint |].
    intros u. apply will_navigate_from_footprint.
  - apply calls_only_bind; [auto with footprint |].
    intros u. apply new_window_from_footprint.
  - apply keeps_listeners_bind; [auto with footprint |].
    intros u. apply new_window_from_footprint.
Qed.

(** ** The cross-process listeners *)

(** Steps of a footprint proof: split sequences, handlers and branches,
    and close the leaves. *)
Ltac footprint_step :=
  first
    [ apply calls_only_bind; [| intros ?]
    | apply calls_only_try_catch; [| intros ?]
    | apply calls_only_ret
    | apply calls_only_lift
    | apply calls_only_ipc_on
    | apply calls_only_ipc_removeAllListeners
    | apply calls_only_perform; cbn; done
    | match goal with
      | |- calls_only _ (if ?b then _ else _) => destruct b
      | |- calls_only _ (match ?x with _ => _ end) => destruct x
      end ].

Lemma extractRelativeEditorUrl_footprint (ok : Effect -> Prop) (url : string) :
  calls_only ok (extractRelativeEditorUrl url).
Proof. unfold extractRelativeEditorUrl. repeat footprint_step. Qed.

Lemma openInBrowser_editorUrl_footprint (ev : nat) (info : Info) (po : URL) :
  calls_only (editor_call ev info po) (openInBrowser ev (editorUrl info)).
Proof.
  intros w. destruct (URL_new (editorUrl info)) as [u | e] eqn:Hu.
  - rewrite (openInBrowser_Ok _ _ _ _ Hu). eexists. split; [reflexivity |].
    destruct (has_http_scheme u) eqn:Hhttp; cbn [app].
    + repeat constructor. cbn. by rewrite (is_http_url_Ok _ _ Hu).
    + by repeat constructor.
  - rewrite (openInBrowser_Throw _ _ _ _ Hu). exists []. cbn.
    by rewrite app_nil_r.
Qed.

Lemma promptWpAdminAuth_footprint (ev : nat) (info : Info) (po : URL)
    (answer : Result nat) :
  calls_only (editor_call ev info po) (promptWpAdminAuth ev info po answer).
Proof.
  unfold promptWpAdminAuth, promptWpAdminAuth_try, showMessageBox.
  unfold enableSSOandContinue, proceedInBrowser, cancel.
  repeat first [ apply openInBrowser_editorUrl_footprint | footprint_step ].
Qed.

Lemma editor_call_http (ev : nat) (info : Info) (po : URL) (e : Effect) :
  editor_call ev info po e -> browser_call_is_http e.
Proof. destruct e; cbn; tauto. Qed.

Lemma navigation_call_http (ev : nat) (e : Effect) :
  navigation_call ev e -> browser_call_is_http e.
Proof. destruct e; cbn; tauto. Qed.

Lemma call_footprint (l : Listener) (ev : nat) (msg : IpcMessage)
    (answer : Result nat) :
  calls_only browser_call_is_http (call l ev msg answer).
Proof.
  destruct l, msg; cbn [call]; try apply calls_only_ret.
  - unfold async, cannot_open_editor.
    apply calls_only_try_catch; [| intros e; by apply calls_only_perform].
    apply calls_only_bind; [by apply calls_only_perform |]. intros _.
    apply calls_only_bind; [apply calls_only_lift |]. intros po.
    eapply calls_only_weaken; [apply (editor_call_http ev info po) |].
    apply promptWpAdminAuth_footprint.
  - unfold async, jetpack_module_activate_status. repeat footprint_step.
  - unfold enable_site_option_response. repeat footprint_step.
  - unfold request_site_response.
    repeat first [ apply extractRelativeEditorUrl_footprint | footprint_step ].
Qed.

Lemma call_all_footprint (ls : list Listener) (ev : nat) (msg : IpcMessage)
    (answer : Result nat) :
  calls_only browser_call_is_http (call_all ls ev msg answer).
Proof.
  induction ls as [| l rest IH]; cbn [call_all]; [apply calls_only_ret |].
  apply calls_only_bind; [apply call_footprint | intros _; exact IH].
Qed.

(** X2. Whatever message arrives on the cross-process channel, whatever
    listeners are registered and whatever the dialog answers, every string
    handed to [shell.openExternal] parses with scheme http or https, and
    the trace of earlier calls is kept. *)
Theorem emitter_opens_only_http (ev : nat) (msg : IpcMessage) (answer : Result nat) :
  calls_only browser_call_is_http (ipc_emit ev msg answer).
Proof.
  intros w. unfold ipc_emit. apply call_all_footprint.
Qed.

(** X3. When the origin parses, the [cannot-open-editor] listener stays
    within its remit, whatever the payload, the answer of the dialog and
    the world: the only dialog it shows is the authorization prompt, the
    only string it gives the browser is the editor URL of the payload, and
    only if that parses with scheme http or https, the only setting it
    writes is the last location with the stats path of the origin, the
    only message it sends is [enable-site-option] for the site of the
    payload, and it never rejects. *)
Theorem cannot_open_editor_footprint (ev : nat) (info : Info) (po : URL)
    (answer : Result nat) :
  URL_new (origin info) = Ok po ->
  calls_only (editor_call ev info po) (cannot_open_editor ev info answer)
  /\ (forall w, fst (cannot_open_editor ev info answer w) = Ok tt).
Proof.
  intros Hpo. split.
  - unfold cannot_open_editor.
    apply calls_only_bind; [by apply calls_only_perform |]. intros _.
    intros w. unfold bind, lift. rewrite Hpo.
    apply promptWpAdminAuth_footprint.
  - intros w. unfold cannot_open_editor, bind, lift, perform. rewrite Hpo.
    unfold promptWpAdminAuth, try_catch.
    destruct (promptWpAdminAuth_try ev info po answer _) as [[[] | e] w1]; done.
Qed.

(** ** The prompt, button by button *)

Lemma promptWpAdminAuth_try_selected (ev : nat) (info : Info) (po : URL)
    (n : nat) (w : World) :
  promptWpAdminAuth_try ev info po (Ok n) w =
  (match n with
   | 0 => if isAdmin info then enableSSOandContinue info else proceedInBrowser ev info
   | 1 => if isAdmin info then proceedInBrowser ev info else cancel
   | 2 => cancel
   | _ => ret tt
   end ;;;
   if negb (isAdmin info && Nat.eqb n 0) then resetLocation po else ret tt)
    (record [ dialog_showMessageBox (prompt info po) ] w).
Proof. reflexivity. Qed.

(** X4. The [switch] of [promptWpAdminAuth] agrees with the buttons it
    offers: when the dialog returns the index of a button, the function
    run is the one the label of that button names, for the two layouts
    alike, and the window is sent to My Sites and the last location saved
    unless that label is Enable SSO and Continue. *)
Theorem selected_button_decides (ev : nat) (info : Info) (po : URL) (n : nat)
    (label : string) (w : World) :
  buttons info !! n = Some label ->
  promptWpAdminAuth_try ev info po (Ok n) w =
  (action ev info label ;;;
   if String.eqb label "Enable SSO and Continue" then ret tt else resetLocation po)
    (record [ dialog_showMessageBox (prompt info po) ] w).
Proof.
  intros Hlabel. rewrite promptWpAdminAuth_try_selected.
  unfold buttons in Hlabel.
  destruct (isAdmin info); destruct n as [| [| [| n]]];
    cbn in Hlabel; try discriminate Hlabel;
    injection Hlabel as <-; reflexivity.
Qed.

(** X5. An administrator who selects Enable SSO and Continue: the
    listener of [enable-site-option-response] is added after those already
    registered, [enable-site-option] is sent for the site with option
    [sso], and that is all; the window is not sent to My Sites, no
    last location is saved, the browser is not called and the default
    action of the event is not suppressed. *)
Theorem enable_sso_defers_the_rest (ev : nat) (info : Info) (po : URL) (w : World) :
  isAdmin info = true ->
  URL_new (origin info) = Ok po ->
  cannot_open_editor ev info (Ok 0) w =
  (Ok tt,
   mkWorld
     (effects w ++
      [ log_info "Cannot open editor for site: ";
        dialog_showMessageBox (prompt info po);
        log_info "User selected 'Enable SSO and Continue' ";
        webContents_send "enable-site-option" (EnableSiteOption (siteId info) "sso") ])
     (<["enable-site-option-response" :=
          (listeners "enable-site-option-response" w
           ++ [ on_enable_site_option_response info ])%list]> (ipc_events w))).
Proof.
  intros Hadmin Hpo.
  unfold cannot_open_editor, promptWpAdminAuth, try_catch.
  unfold bind at 1 2. unfold perform at 1. unfold lift. rewrite Hpo.
  rewrite promptWpAdminAuth_try_selected, Hadmin.
  unfold enableSSOandContinue, bind, perform, ipc_on, ret, record, listeners.
  cbn [negb andb Nat.eqb effects ipc_events fst snd].
  by rewrite <- !app_assoc.
Qed.

(** X6. Cancel, in either layout, calls neither the browser nor
    [preventDefault], but the window is still sent to My Sites and the
    last location still saved; the same holds, without the log line, when
    the dialog returns a number beyond the third button. *)
Theorem cancel_resets_location (ev : nat) (info : Info) (po : URL) (n : nat)
    (w : World) :
  URL_new (origin info) = Ok po ->
  (buttons info !! n = Some "Cancel" ->
   cannot_open_editor ev info (Ok n) w =
   (Ok tt,
    record [ log_info "Cannot open editor for site: ";
             dialog_showMessageBox (prompt info po);
             log_info "User selected 'Cancel'...";
             showMySites;
             Settings_saveSetting LAST_LOCATION ("/stats/day/" +:+ hostname po) ] w))
  /\ (3 <= n ->
      cannot_open_editor ev info (Ok n) w =
      (Ok tt,
       record [ log_info "Cannot open editor for site: ";
                dialog_showMessageBox (prompt info po);
                showMySites;
                Settings_saveSetting LAST_LOCATION ("/stats/day/" +:+ hostname po) ] w)).
Proof.
  intros Hpo.
  assert (Hrun : forall n,
             cannot_open_editor ev info (Ok n) w =
             try_catch (promptWpAdminAuth_try ev info po (Ok n))
               (fun _ => perform (log_error "Failed to prompt for Jetpack authorization: "))
               (record [ log_info "Cannot open editor for site: " ] w)).
  { intros k. unfold cannot_open_editor, promptWpAdminAuth.
    unfold bind at 1 2. unfold perform at 1. unfold lift. by rewrite Hpo. }
  split.
  - intros Hlabel. rewrite Hrun. unfold try_catch.
    rewrite promptWpAdminAuth_try_selected. unfold buttons in Hlabel.
    destruct (isAdmin info); destruct n as [| [| [| n]]];
      cbn in Hlabel; try discriminate Hlabel;
      unfold cancel, resetLocation, bind, perform; cbn [negb andb Nat.eqb];
      by rewrite !record_record.
  - intros Hn. rewrite Hrun. unfold try_catch.
    rewrite promptWpAdminAuth_try_selected.
    destruct n as [| [| [| n]]]; [lia | lia | lia |].
    rewrite andb_false_r. unfold resetLocation, bind, perform, ret. cbn [negb].
    by rewrite !record_record.
Qed.

(** ** Outcomes of the navigation listeners *)

(** The code after the loop of [new-window]. *)
Lemma new_window_after_loop (ev : nat) (url : string) (u : URL) (options : Options)
    (w : World) :
  new_window_from ev url u options [] w =
  let internal := String.eqb (hostname u) server_host in
  let w1 := if internal
            then record [ log_info "Replacing internal url with public url" ] w
            else w in
  let openUrl := format (if internal
                         then URL_set_port (URL_set_hostname u wordpress_host) ""
                         else u) in
  match URL_new openUrl with
  | Ok parsed =>
      (Ok options,
       record ((if has_http_scheme parsed
                then [ log_info ("Using system default handler for URL: " +:+ openUrl);
                       shell_openExternal openUrl ]
                else []) ++ [ event_preventDefault ev ]) w1)
  | Throw e => (Throw e, w1)
  end.
Proof.
  cbn [new_window_from]. unfold replaceInternalCalypsoUrl. cbn zeta.
  destruct (String.eqb (hostname u) server_host).
  - unfold bind at 1 2. unfold perform at 1. unfold ret at 1.
    destruct (URL_new (format (URL_set_port (URL_set_hostname u wordpress_host) "")))
      as [parsed | e] eqn:Hparsed; unfold bind.
    + by rewrite (openInBrowser_Ok _ _ _ _ Hparsed).
    + by rewrite (openInBrowser_Throw _ _ _ _ Hparsed).
  - unfold bind at 1. unfold ret at 1.
    destruct (URL_new (format u)) as [parsed | e] eqn:Hparsed; unfold bind.
    + by rewrite (openInBrowser_Ok _ _ _ _ Hparsed).
    + by rewrite (openInBrowser_Throw _ _ _ _ Hparsed).
Qed.

Lemma prevented_once (ev : nat) (http : bool) (url : string) (logs : list string) :
  prevented ev
    (map log_info logs ++
     (if http
      then [ log_info ("Using system default handler for URL: " +:+ url);
             shell_openExternal url ]
      else []) ++ [ event_preventDefault ev ]) = 1.
Proof.
  unfold prevented. rewrite !List.filter_app, !length_app.
  assert (Hlogs : length (List.filter
            (fun e => match e with
                      | event_preventDefault ev' => Nat.eqb ev' ev
                      | _ => false
                      end) (map log_info logs)) = 0).
  { induction logs as [| l logs IH]; [done | exact IH]. }
  rewrite Hlogs. destruct http; cbn [List.filter length]; by rewrite Nat.eqb_refl.
Qed.


(** X8. A navigation listener that returns has done one of two things.
    [will-navigate] either left the world as it was or suppressed the
    default action exactly once.  [new-window] either opened a secondary
    window, with the options shrunk and shifted and one log line, or
    suppressed the default action exactly once with the options exactly as
    they came. *)
Theorem navigation_returns_one_of_two (ev : nat) (url : string) (options : Options)
    (w : World) :
  (forall w', will_navigate ev url w = (Ok tt, w') ->
     w' = w \/ exists es, w' = record es w /\ prevented ev es = 1)
  /\ (forall options' w', new_window ev url options w = (Ok options', w') ->
        (options' = shrink_and_offset options
         /\ w' = record [ log_info ("Open in new window for " +:+ url) ] w)
        \/ (options' = options
            /\ exists es, w' = record es w /\ prevented ev es = 1)).
Proof.
  split.
  - intros w'. destruct (URL_new url) as [u | e0] eqn:Hu.
    + rewrite (will_navigate_parsed _ _ _ _ Hu), will_navigate_from_first_match.
      destruct (first_match u ALWAYS_OPEN_IN_APP) as [[] | e1].
      * intros [= <-]. by left.
      * rewrite (openInBrowser_Ok _ _ _ _ Hu). intros [= <-]. right.
        eexists. split; [reflexivity |]. apply (prevented_once ev _ url []).
      * discriminate.
    + unfold will_navigate, bind, lift. by rewrite Hu.
  - intros options' w'. destruct (URL_new url) as [u | e0] eqn:Hu.
    + rewrite (new_window_parsed _ _ _ _ _ Hu), new_window_from_first_match.
      destruct (first_match u DONT_OPEN_IN_BROWSER) as [[] | e1].
      * intros [= <- <-]. by left.
      * rewrite new_window_after_loop. cbn zeta.
        destruct (URL_new (format _)) as [parsed | e1]; [| discriminate].
        intros [= <- <-]. right. split; [done |].
        destruct (String.eqb (hostname u) server_host).
        -- rewrite record_record. eexists. split; [reflexivity |].
           apply (prevented_once ev _ _ [ "Replacing internal url with public url" ]).
        -- eexists. split; [reflexivity |]. apply (prevented_once ev _ _ []).
      * discriminate.
    + unfold new_window, bind, lift. by rewrite Hu.
Qed.

(** X14. The first entry of either policy list comes from the
    configuration and is parsed on every event.  When [http://] followed
    by the configured server host is not a URL, [will-navigate] throws for
    every destination that parses, before anything is done; when the
    configured server URL is not a URL, so does [new-window], and the
    options are not touched. *)
Theorem unparsable_configuration_stops_navigation (ev : nat) (url : string)
    (u : URL) (options : Options) (w : World) (e : Exn) :
  URL_new url = Ok u ->
  (URL_new ("http://" +:+ server_host) = Throw e ->
   will_navigate ev url w = (Throw e, w))
  /\ (URL_new server_url = Throw e ->
      new_window ev url options w = (Throw e, w)).
Proof.
  intros Hu. split; intros Hentry.
  - rewrite (will_navigate_parsed _ _ _ _ Hu), will_navigate_from_first_match.
    unfold ALWAYS_OPEN_IN_APP. cbn [first_match]. by rewrite Hentry.
  - rewrite (new_window_parsed _ _ _ _ _ Hu), new_window_from_first_match.
    unfold DONT_OPEN_IN_BROWSER. cbn [first_match]. by rewrite Hentry.
Qed.

(** ** The classifier as a relation *)

(** X12. [domainAndPathSame] is reflexive and transitive (while it is not
    symmetric): what a policy entry matches, an entry for the same host
    with the same or the wildcard path matches too. *)
Theorem domainAndPathSame_preorder :
  (forall a : URL, domainAndPathSame a a = true)
  /\ (forall a b c : URL,
        domainAndPathSame a b = true -> domainAndPathSame b c = true ->
        domainAndPathSame a c = true).
Proof.
  assert (Hiff : forall a b : URL,
             domainAndPathSame a b = true <->
             hostname a = hostname b /\ (pathname a = pathname b \/ pathname b = "/*")).
  { intros a b. unfold domainAndPathSame.
    rewrite andb_true_iff, orb_true_iff, !String.eqb_eq. tauto. }
  split.
  - intros a. apply Hiff. by split; [| left].
  - intros a b c [Hab Pab]%Hiff [Hbc Pbc]%Hiff. apply Hiff.
    split; [congruence |].
    destruct Pbc as [Pbc | Pbc]; [| by right].
    destruct Pab as [Pab | Pab]; [left | right]; congruence.
Qed.

(** ** The listeners of the activation round trip *)

(** X11. What [request-site-response] sends.  With an editor URL that
    does not parse, or whose [redirect_to] parameter is present, not empty
    and not an absolute URL, the listener throws after its log line and
    [navigate] is not sent.  With no [redirect_to], or an empty one,
    [navigate] carries the editor URL unchanged, not a path.  Otherwise it
    carries the path of the [redirect_to] URL. *)
Theorem navigate_after_refresh (info : Info) (w : World) :
  (forall e, URL_new (editorUrl info) = Throw e ->
     request_site_response info w =
     (Throw e, record [ log_info "Received state refresh for site: " ] w))
  /\ (forall u, URL_new (editorUrl info) = Ok u ->
        URL_searchParams_get u "redirect_to" = None
        \/ URL_searchParams_get u "redirect_to" = Some "" ->
        request_site_response info w =
        (Ok tt,
         record [ log_info "Received state refresh for site: ";
                  webContents_send "navigate" (Path (editorUrl info)) ] w))
  /\ (forall u redirect, URL_new (editorUrl info) = Ok u ->
        URL_searchParams_get u "redirect_to" = Some redirect ->
        redirect <> "" ->
        (forall parsedRedirect, URL_new redirect = Ok parsedRedirect ->
           request_site_response info w =
           (Ok tt,
            record [ log_info "Received state refresh for site: ";
                     webContents_send "navigate" (Path (pathname parsedRedirect)) ] w))
        /\ (forall e, URL_new redirect = Throw e ->
              request_site_response info w =
              (Throw e, record [ log_info "Received state refresh for site: " ] w))).
Proof.
  unfold request_site_response, extractRelativeEditorUrl.
  unfold bind, lift, perform, ret.
  split; [| split].
  - intros e ->. done.
  - intros u -> [-> | ->]; [| cbn [negb String.eqb]]; by rewrite record_record.
  - intros u redirect -> -> Hne.
    rewrite (proj2 (String.eqb_neq _ _) Hne). cbn [negb].
    split; [intros parsedRedirect -> | intros e ->]; [| done].
    by rewrite record_record.
Qed.

Lemma sent_app (c : string) (es1 es2 : list Effect) :
  sent c (es1 ++ es2) = (sent c es1 ++ sent c es2)%list.
Proof. unfold sent. apply flat_map_app. Qed.

(** One run of the listener of [enable-site-option-response]. *)
Lemma enable_site_option_response_run (info : Info) (status : string) (w : World) :
  exists w1,
    enable_site_option_response info status w = (Ok tt, w1)
    /\ listeners "enable-site-option-response" w1 = []
    /\ listeners "request-site-response" w1 =
       (listeners "request-site-response" w
        ++ (if String.eqb status "success" then [ on_request_site_response info ] else []))%list
    /\ sent "request-site" (effects w1) =
       (sent "request-site" (effects w)
        ++ (if String.eqb status "success" then [ SiteId (siteId info) ] else []))%list
    /\ sent "navigate" (effects w1) = sent "navigate" (effects w).
Proof.
  unfold enable_site_option_response, listeners.
  unfold bind, ipc_removeAllListeners, ipc_on, perform, record.
  destruct (String.eqb status "success"); eexists; (split; [reflexivity |]);
    cbn [effects ipc_events].
  - rewrite lookup_insert_ne by done. rewrite lookup_delete_eq.
    rewrite lookup_insert_eq. rewrite lookup_delete_ne by done.
    rewrite <- !app_assoc, !sent_app. cbn. by rewrite !app_nil_r.
  - rewrite lookup_delete_eq. rewrite lookup_delete_ne by done.
    rewrite !sent_app. cbn. by rewrite !app_nil_r.
Qed.

Lemma call_all_enable_listeners (ev : nat) (status : string) (answer : Result nat)
    (ls : list Listener) (w : World) :
  forallb is_enable_listener ls = true ->
  exists w',
    call_all ls ev (EnableSiteOptionResponse status) answer w = (Ok tt, w')
    /\ listeners "enable-site-option-response" w' =
       (if ls is [] then listeners "enable-site-option-response" w else [])
    /\ listeners "request-site-response" w' =
       (listeners "request-site-response" w
        ++ (if String.eqb status "success"
            then map on_request_site_response (omap captured ls) else []))%list
    /\ sent "request-site" (effects w') =
       (sent "request-site" (effects w)
        ++ (if String.eqb status "success"
            then map (fun i => SiteId (siteId i)) (omap captured ls) else []))%list
    /\ sent "navigate" (effects w') = sent "navigate" (effects w).
Proof.
  revert w. induction ls as [| l rest IH]; intros w Hls.
  - exists w. cbn. by destruct (String.eqb status "success"); rewrite !app_nil_r.
  - cbn in Hls. apply andb_true_iff in Hls as [Hl Hrest].
    destruct l as [| | info |]; try discriminate Hl.
    destruct (enable_site_option_response_run info status w)
      as (w1 & Hrun & Hnone & Hreq & Hsent & Hnav).
    destruct (IH w1 Hrest) as (w' & Hrun' & Hnone' & Hreq' & Hsent' & Hnav').
    exists w'. cbn [call_all call]. unfold bind. rewrite Hrun, Hrun'.
    split; [done |]. split.
    { rewrite Hnone'. by destruct rest. }
    rewrite Hreq', Hreq, Hsent', Hsent, Hnav', Hnav.
    destruct (String.eqb status "success"); cbn [omap list_omap captured map];
      by rewrite <- !app_assoc.
Qed.

(** X9. The answer to the activation request, in a world where the
    listeners of [enable-site-option-response] are those the flow has
    registered: every one of them runs on the one answer and none is left
    afterwards.  On success each registers a listener of
    [request-site-response], after those already there, and sends
    [request-site] for its site, so two flows pending give two refresh
    requests; on any other status nothing is sent or registered.  No
    [navigate] is sent either way. *)
Theorem activation_answer_runs_every_listener (ev : nat) (status : string)
    (answer : Result nat) (w : World) :
  forallb is_enable_listener (listeners "enable-site-option-response" w) = true ->
  let infos := omap captured (listeners "enable-site-option-response" w) in
  let r := ipc_emit ev (EnableSiteOptionResponse status) answer w in
  fst r = Ok tt
  /\ listeners "enable-site-option-response" (snd r) = []
  /\ listeners "request-site-response" (snd r) =
     (listeners "request-site-response" w
      ++ (if String.eqb status "success"
          then map on_request_site_response infos else []))%list
  /\ sent "request-site" (effects (snd r)) =
     (sent "request-site" (effects w)
      ++ (if String.eqb status "success"
          then map (fun i => SiteId (siteId i)) infos else []))%list
  /\ sent "navigate" (effects (snd r)) = sent "navigate" (effects w).
Proof.
  intros Hls. cbn zeta. unfold ipc_emit. cbn [channel].
  destruct (call_all_enable_listeners ev status answer _ w Hls)
    as (w' & Hrun & Hnone & Hreq & Hsent & Hnav).
  rewrite Hrun. cbn [fst snd]. split; [done |]. split; [| done].
  rewrite Hnone. by destruct (listeners "enable-site-option-response" w).
Qed.

(** The value [extractRelativeEditorUrl] computes does not depend on the
    world, which it leaves alone. *)
Lemma extractRelativeEditorUrl_pure (url : string) (w w0 : World) :
  extractRelativeEditorUrl url w = (fst (extractRelativeEditorUrl url w0), w).
Proof.
  unfold extractRelativeEditorUrl, bind, lift, ret.
  destruct (URL_new url) as [parsed | e]; [| done].
  destruct (URL_searchParams_get parsed "redirect_to") as [redirect |]; [| done].
  destruct (negb (String.eqb redirect "")); [| done].
  by destruct (URL_new redirect).
Qed.

Lemma call_all_request_listeners (ev : nat) (answer : Result nat)
    (ls : list Listener) (w : World) :
  forallb can_navigate ls = true ->
  exists navs,
    call_all ls ev RequestSiteResponse answer w
    = (Ok tt, record navs w)
    /\ length (sent "navigate" navs) = length ls.
Proof.
  revert w. induction ls as [| l rest IH]; intros w Hls.
  - exists []. cbn. split; [| done]. unfold ret, record. destruct w. cbn.
    by rewrite app_nil_r.
  - cbn in Hls. apply andb_true_iff in Hls as [Hl Hrest].
    destruct l as [| | | info]; try discriminate Hl. unfold can_navigate in Hl.
    cbn [call_all call]. unfold bind at 1. unfold request_site_response.
    unfold bind at 1 2. unfold perform at 1.
    rewrite (extractRelativeEditorUrl_pure _ _ initial_world).
    destruct (fst (extractRelativeEditorUrl (editorUrl info) initial_world))
      as [relative | e]; [| discriminate Hl].
    unfold perform. rewrite record_record.
    destruct (IH (record ([log_info "Received state refresh for site: "] ++
                          [webContents_send "navigate" (Path relative)]) w) Hrest)
      as (navs & Hrun & Hlen).
    rewrite Hrun, record_record. eexists. split; [reflexivity |].
    rewrite !sent_app, !length_app, Hlen. by cbn.
Qed.

Lemma call_all_keeps_listeners (ev : nat) (answer : Result nat) (ls : list Listener) :
  keeps_listeners (call_all ls ev RequestSiteResponse answer).
Proof.
  induction ls as [| l rest IH]; cbn [call_all]; [apply keeps_listeners_ret |].
  apply keeps_listeners_bind; [| intros _; exact IH].
  destruct l; cbn [call]; try apply keeps_listeners_ret.
  intros w. apply request_site_response_keeps_listeners.
Qed.

(** X10. A [request-site-response] never changes the listener table,
    whatever is registered: the listeners it runs are still registered for
    the next one.  When the registered listeners are those of the flow and
    their editor URLs yield a path, each sends one [navigate], so that a
    table with n of them answers one response with n navigations. *)
Theorem refresh_answer_keeps_its_listeners (ev : nat) (answer : Result nat) :
  keeps_listeners (ipc_emit ev RequestSiteResponse answer)
  /\ (forall w,
        forallb can_navigate (listeners "request-site-response" w) = true ->
        exists navs,
          ipc_emit ev RequestSiteResponse answer w = (Ok tt, record navs w)
          /\ length (sent "navigate" navs)
             = length (listeners "request-site-response" w)).
Proof.
  split.
  - intros w. unfold ipc_emit. apply call_all_keeps_listeners.
  - intros w Hls. unfold ipc_emit. cbn [channel].
    by apply call_all_request_listeners.
Qed.

(** ** The two revisions of the prompt *)

Lemma record_effects_app (es : list Effect) (w : World) :
  effects (record es w) = (effects w ++ es)%list.
Proof. reflexivity. Qed.

Lemma essential_app (es1 es2 : list Effect) :
  essential (es1 ++ es2) = (essential es1 ++ essential es2)%list.
Proof. unfold essential. apply flat_map_app. Qed.

Lemma essential_prompt (info : Info) (po : URL) :
  isAdmin info = false ->
  essential [ dialog_showMessageBox (prompt info po) ]
  = essential [ dialog_showMessageBox (prompt_earlier po) ].
Proof. intros Hadmin. unfold prompt, buttons. by rewrite Hadmin. Qed.

(** Both revisions as a prompt effect followed by further calls. *)
Lemma revisions_after_prompt (info : Info) (po : URL) (w : World)
    (before rest rest' : list Effect) :
  isAdmin info = false ->
  essential before = [] ->
  essential rest = essential rest' ->
  essential (effects (record (before ++ dialog_showMessageBox (prompt info po) :: rest) w))
  = essential (effects (record (dialog_showMessageBox (prompt_earlier po) :: rest') w)).
Proof.
  intros Hadmin Hbefore Hrest. unfold record. cbn [effects].
  rewrite !essential_app, Hbefore.
  change (dialog_showMessageBox (prompt info po) :: rest)
    with ([dialog_showMessageBox (prompt info po)] ++ rest)%list.
  change (dialog_showMessageBox (prompt_earlier po) :: rest')
    with ([dialog_showMessageBox (prompt_earlier po)] ++ rest')%list.
  by rewrite !essential_app, (essential_prompt _ _ Hadmin), Hrest.
Qed.

(** X13. For a user who is not an administrator the two revisions of the
    [cannot-open-editor] listener in the sources agree, whatever the
    payload, the answer of the dialog and the world: same result, same
    listener table, same buttons, and the same calls in the same order once
    the info logs are dropped and the detail text of the dialog is
    blanked. *)
Theorem revisions_agree_for_non_admin (ev : nat) (info : Info)
    (answer : Result nat) (w : World) :
  isAdmin info = false ->
  fst (cannot_open_editor ev info answer w)
  = fst (cannot_open_editor_earlier ev info answer w)
  /\ ipc_events (snd (cannot_open_editor ev info answer w))
     = ipc_events (snd (cannot_open_editor_earlier ev info answer w))
  /\ essential (effects (snd (cannot_open_editor ev info answer w)))
     = essential (effects (snd (cannot_open_editor_earlier ev info answer w)))
  /\ (forall po, mb_buttons (prompt info po) = mb_buttons (prompt_earlier po)).
Proof.
  intros Hadmin.
  assert (Hbuttons : forall po, mb_buttons (prompt info po) = mb_buttons (prompt_earlier po)).
  { intros po. unfold prompt, buttons. by rewrite Hadmin. }
  unfold cannot_open_editor, cannot_open_editor_earlier.
  unfold promptWpAdminAuth, promptWpAdminAuth_earlier, try_catch.
  unfold promptWpAdminAuth_try, showMessageBox, proceedInBrowser, cancel.
  unfold bind, lift, perform, ret. rewrite Hadmin.
  destruct (URL_new (origin info)) as [po0 | e0] eqn:Hpo; cbv beta iota zeta.
  2:{ cbn [fst snd]. repeat split; [| exact Hbuttons].
      rewrite record_effects_app, essential_app. cbn. by rewrite app_nil_r. }
  assert (Hfinish : forall (r : Result unit) rest rest',
             essential rest = essential rest' ->
             fst (r, record ([ log_info "Cannot open editor for site: " ]
                             ++ dialog_showMessageBox (prompt info po0) :: rest) w)
             = fst (r, record (dialog_showMessageBox (prompt_earlier po0) :: rest') w)
             /\ ipc_events (record ([ log_info "Cannot open editor for site: " ]
                                    ++ dialog_showMessageBox (prompt info po0) :: rest) w)
                = ipc_events (record (dialog_showMessageBox (prompt_earlier po0) :: rest') w)
             /\ essential (effects
                   (record ([ log_info "Cannot open editor for site: " ]
                            ++ dialog_showMessageBox (prompt info po0) :: rest) w))
                = essential (effects
                    (record (dialog_showMessageBox (prompt_earlier po0) :: rest') w))
             /\ (forall po, mb_buttons (prompt info po) = mb_buttons (prompt_earlier po))).
  { intros r rest rest' Hrest. repeat split; [| exact Hbuttons].
    by apply revisions_after_prompt. }
  destruct answer as [n | e1]; cbv beta iota zeta.
  2:{ cbn [fst snd]. rewrite !record_record. by apply Hfinish. }
  destruct n as [| [| [| n]]]; cbv beta iota zeta; cbn [negb andb fst snd].
  - destruct (URL_new (editorUrl info)) as [eu | e1] eqn:Heu.
    + rewrite !(openInBrowser_Ok _ _ _ _ Heu). cbv beta iota zeta. cbn [fst snd].
      rewrite !record_record. by apply Hfinish.
    + rewrite !(openInBrowser_Throw _ _ _ _ Heu). cbv beta iota zeta. cbn [fst snd].
      rewrite !record_record. by apply Hfinish.
  - rewrite !record_record. by apply Hfinish.
  - rewrite !record_record. by apply Hfinish.
  - rewrite !record_record. by apply Hfinish.
Qed.

(** ** Classification and what follows it *)

(** C10, as the code has it.  Classification reads the host name and the
    path only.  For two parsed URLs with the same host name and the same
    path, whatever their scheme, port, query and fragment:
    [domainAndPathSame] gives the same result against every entry, and
    the loops of the listeners reach one and the same decision for every
    policy list.  So [will-navigate] leaves both destinations in the
    application, or throws for both at the same entry, or passes both to
    [openInBrowser]; and [new-window] opens a secondary window for both,
    or throws for both, or rewrites both or neither and passes both to
    [openInBrowser].  Past that decision the scheme still counts:
    [openInBrowser] suppresses the default navigation for both, and hands
    to the external browser only the one whose scheme is http or https. *)
Theorem classification_by_host_and_path (a a' : URL) :
  hostname a = hostname a' ->
  pathname a = pathname a' ->
  (forall b, domainAndPathSame a b = domainAndPathSame a' b)
  /\ (forall entries, first_match a entries = first_match a' entries)
  /\ (forall ev url url' w,
        URL_new url = Ok a -> URL_new url' = Ok a' ->
        exists decision,
          first_match a ALWAYS_OPEN_IN_APP = decision
          /\ first_match a' ALWAYS_OPEN_IN_APP = decision
          /\ will_navigate ev url w =
             match decision with
             | Ok true => (Ok tt, w)
             | Ok false =>
                 (Ok tt,
                  record ((if has_http_scheme a
                           then [ log_info ("Using system default handler for URL: " +:+ url);
                                  shell_openExternal url ]
                           else []) ++ [ event_preventDefault ev ]) w)
             | Throw e => (Throw e, w)
             end
          /\ will_navigate ev url' w =
             match decision with
             | Ok true => (Ok tt, w)
             | Ok false =>
                 (Ok tt,
                  record ((if has_http_scheme a'
                           then [ log_info ("Using system default handler for URL: " +:+ url');
                                  shell_openExternal url' ]
                           else []) ++ [ event_preventDefault ev ]) w)
             | Throw e => (Throw e, w)
             end)
  /\ (forall ev url url' options w,
        URL_new url = Ok a -> URL_new url' = Ok a' ->
        exists decision internal,
          first_match a DONT_OPEN_IN_BROWSER = decision
          /\ first_match a' DONT_OPEN_IN_BROWSER = decision
          /\ String.eqb (hostname a) server_host = internal
          /\ String.eqb (hostname a') server_host = internal
          /\ new_window ev url options w =
             match decision with
             | Ok true =>
                 (Ok (shrink_and_offset options),
                  record [ log_info ("Open in new window for " +:+ url) ] w)
             | Ok false =>
                 (openInBrowser ev
                    (format (if internal
                             then URL_set_port (URL_set_hostname a wordpress_host) ""
                             else a)) ;;;
                  ret options)
                   (if internal
                    then record [ log_info "Replacing internal url with public url" ] w
                    else w)
             | Throw e => (Throw e, w)
             end
          /\ new_window ev url' options w =
             match decision with
             | Ok true =>
                 (Ok (shrink_and_offset options),
                  record [ log_info ("Open in new window for " +:+ url') ] w)
             | Ok false =>
                 (openInBrowser ev
                    (format (if internal
                             then URL_set_port (URL_set_hostname a' wordpress_host) ""
                             else a')) ;;;
                  ret options)
                   (if internal
                    then record [ log_info "Replacing internal url with public url" ] w
                    else w)
             | Throw e => (Throw e, w)
             end).
Proof.
  intros Hhost Hpath.
  assert (Hsame : forall b, domainAndPathSame a b = domainAndPathSame a' b).
  { intros b. unfold domainAndPathSame. by rewrite Hhost, Hpath. }
  assert (Hfirst : forall entries, first_match a entries = first_match a' entries).
  { induction entries as [| entry rest IH]; cbn; [done |].
    destruct (URL_new entry) as [entryUrl | e]; [| done].
    rewrite Hsame. by rewrite IH. }
  assert (Hafter : forall ev url (u : URL) options w,
             new_window_from ev url u options [] w =
             (openInBrowser ev
                (format (if String.eqb (hostname u) server_host
                         then URL_set_port (URL_set_hostname u wordpress_host) ""
                         else u)) ;;;
              ret options)
               (if String.eqb (hostname u) server_host
                then record [ log_info "Replacing internal url with public url" ] w
                else w)).
  { intros ev url u options w. cbn [new_window_from].
    unfold replaceInternalCalypsoUrl.
    by destruct (String.eqb (hostname u) server_host). }
  split; [exact Hsame |]. split; [exact Hfirst |]. split.
  - intros ev url url' w Hu Hu'.
    exists (first_match a ALWAYS_OPEN_IN_APP).
    split; [done |]. split; [by rewrite Hfirst |].
    rewrite (will_navigate_parsed _ _ _ _ Hu), (will_navigate_parsed _ _ _ _ Hu').
    rewrite (will_navigate_from_first_match _ _ a),
      (will_navigate_from_first_match _ _ a'), <- Hfirst.
    rewrite <- (openInBrowser_Ok ev url a w Hu), <- (openInBrowser_Ok ev url' a' w Hu').
    done.
  - intros ev url url' options w Hu Hu'.
    exists (first_match a DONT_OPEN_IN_BROWSER), (String.eqb (hostname a) server_host).
    split; [done |]. split; [by rewrite Hfirst |].
    split; [done |]. split; [by rewrite Hhost |].
    rewrite (new_window_parsed _ _ _ _ _ Hu), (new_window_parsed _ _ _ _ _ Hu').
    rewrite (new_window_from_first_match _ _ a _ DONT_OPEN_IN_BROWSER),
      (new_window_from_first_match _ _ a' _ DONT_OPEN_IN_BROWSER), <- Hfirst.
    rewrite !Hafter, <- Hhost. done.
Qed.

End FurtherProperties.

(** * The listeners on concrete inputs

    From here on the [url] module is [Node.url_module] and the
    configuration is [Node.config]. *)

#[local] Existing Instance Node.url_module.
#[local] Existing Instance Node.config.

(** C1, the claim as written fails: a string that is not a URL makes
    [isValidBrowserUrl] throw; it does not return [false]. *)
Lemma isValidBrowserUrl_unparsable_throws :
  URL_new "not a url" = Throw (ERR_INVALID_URL "not a url")
  /\ isValidBrowserUrl "not a url" initial_world
     = (Throw (ERR_INVALID_URL "not a url"), initial_world)
  /\ isValidBrowserUrl "not a url" initial_world <> (Ok None, initial_world).
Proof. split; [| split]; [reflexivity | reflexivity | discriminate]. Qed.

Lemma isValidBrowserUrl_cases_witness :
  (isValidBrowserUrl "https://wordpress.com/wp-login.php" initial_world
   = (Ok (Some "https://wordpress.com/wp-login.php"), initial_world)
   /\ truthy (Some "https://wordpress.com/wp-login.php") = true)
  /\ isValidBrowserUrl "mailto:someone@example.com" initial_world
     = (Ok None, initial_world)
  /\ isValidBrowserUrl "not a url" initial_world
     = (Throw (ERR_INVALID_URL "not a url"), initial_world).
Proof.
  split; [| split].
  - eapply (proj1 (isValidBrowserUrl_cases _ _)).
    + vm_compute. reflexivity.
    + right. reflexivity.
  - eapply (proj1 (proj2 (isValidBrowserUrl_cases _ _))).
    + vm_compute. reflexivity.
    + vm_compute. discriminate.
    + vm_compute. discriminate.
  - apply (proj2 (proj2 (isValidBrowserUrl_cases _ _))).
    vm_compute. reflexivity.
Defined.

(** C2, the claim as written fails: for a string that is not a URL,
    [openInBrowser] throws before [preventDefault] is called. *)
Lemma openInBrowser_unparsable_prevents_nothing :
  openInBrowser 1 "not a url" initial_world
  = (Throw (ERR_INVALID_URL "not a url"), initial_world)
  /\ prevented 1 (effects (snd (openInBrowser 1 "not a url" initial_world))) = 0.
Proof. split; reflexivity. Qed.

Lemma openInBrowser_cases_witness :
  (exists v,
      isValidBrowserUrl "http://evil.example/x" initial_world = (Ok v, initial_world)
      /\ (truthy v = true <-> "http:" = "http:" \/ "http:" = "https:")
      /\ openInBrowser 1 "http://evil.example/x" initial_world =
         (Ok tt,
          record ((if truthy v
                   then [ log_info "Using system default handler for URL: http://evil.example/x";
                          shell_openExternal "http://evil.example/x" ]
                   else []) ++ [ event_preventDefault 1 ]) initial_world))
  /\ openInBrowser 1 "not a url" initial_world
     = (Throw (ERR_INVALID_URL "not a url"), initial_world).
Proof.
  split.
  - apply (proj1 (openInBrowser_cases 1 "http://evil.example/x" initial_world)
             (mkURL "http:" "" "" "evil.example" "" "/x" "" "")).
    vm_compute. reflexivity.
  - apply (proj2 (openInBrowser_cases 1 "not a url" initial_world)).
    vm_compute. reflexivity.
Defined.

Lemma will_navigate_policy_witness :
  will_navigate 1 "https://wordpress.com/wp-login.php" initial_world
  = (Ok tt, initial_world)
  /\ exists es,
      will_navigate 1 "http://evil.example/x" initial_world
      = (Ok tt, record es initial_world)
      /\ prevented 1 es = 1
      /\ opened es = [ "http://evil.example/x" ].
Proof.
  split.
  - refine (proj1 (will_navigate_policy 1 "https://wordpress.com/wp-login.php"
                     (mkURL "https:" "" "" "wordpress.com" "" "/wp-login.php" "" "")
                     initial_world _)
              [ "http://127.0.0.1"; "http://localhost";
                "http://calypso.localhost:3000/*"; "https:/public-api.wordpress.com" ]
              "https://wordpress.com/wp-login.php"
              [ "http://127.0.0.1:41050/*" ] _ _ _);
      vm_compute; reflexivity.
  - assert (Hu : URL_new "http://evil.example/x"
                 = Ok (mkURL "http:" "" "" "evil.example" "" "/x" "" ""))
      by (vm_compute; reflexivity).
    assert (Hparse : forallb parses ALWAYS_OPEN_IN_APP = true)
      by (vm_compute; reflexivity).
    assert (Hnone : existsb (matches (mkURL "http:" "" "" "evil.example" "" "/x" "" ""))
                            ALWAYS_OPEN_IN_APP = false)
      by (vm_compute; reflexivity).
    destruct (proj2 (will_navigate_policy 1 "http://evil.example/x" _ initial_world Hu)
                Hparse Hnone)
      as (es & Hrun & Hprevented & Hhttp & _).
    exists es. split; [exact Hrun |]. split; [exact Hprevented |].
    apply Hhttp. left. reflexivity.
Defined.

Lemma domainAndPathSame_iff_witness :
  domainAndPathSame (mkURL "https:" "" "" "x" "" "/*" "" "")
                    (mkURL "https:" "" "" "x" "" "/foo" "" "") = false
  /\ domainAndPathSame (mkURL "https:" "" "" "x" "" "/foo" "" "")
                       (mkURL "https:" "" "" "x" "" "/*" "" "") = true.
Proof.
  apply (proj2 domainAndPathSame_iff
           (mkURL "https:" "" "" "x" "" "/*" "" "")
           (mkURL "https:" "" "" "x" "" "/foo" "" ""));
    reflexivity.
Defined.

Lemma new_window_listed_witness :
  exists options' es,
    new_window 1 "https://public-api.wordpress.com/connect/?action=request"
               (mkOptions 100 200 800 600) initial_world
    = (Ok options', record es initial_world)
    /\ x options' = 150%float
    /\ y options' = 250%float
    /\ width options' = 720%float
    /\ height options' = 540%float
    /\ opened es = []
    /\ prevented 1 es = 0.
Proof.
  assert (Hu : URL_new "https://public-api.wordpress.com/connect/?action=request"
               = Ok (mkURL "https:" "" "" "public-api.wordpress.com" "" "/connect/"
                           "?action=request" ""))
    by (vm_compute; reflexivity).
  assert (Hlist : DONT_OPEN_IN_BROWSER
                  = ([ "http://127.0.0.1:41050" ]
                     ++ "https://public-api.wordpress.com/connect/" :: [])%list)
    by (vm_compute; reflexivity).
  assert (Hbefore : forallb parses [ "http://127.0.0.1:41050" ] = true)
    by (vm_compute; reflexivity).
  assert (Hentry : matches (mkURL "https:" "" "" "public-api.wordpress.com" "" "/connect/"
                                  "?action=request" "")
                           "https://public-api.wordpress.com/connect/" = true)
    by (vm_compute; reflexivity).
  destruct (new_window_listed 1 _ _ (mkOptions 100 200 800 600) initial_world _ _ _
              Hu Hlist Hbefore Hentry)
    as (options' & es & Hrun & Hx & Hy & Hwidth & Hheight & _ & Hopened & Hprevented).
  exists options', es. split; [exact Hrun |].
  rewrite Hx, Hy, Hwidth, Hheight.
  repeat split; try assumption; vm_compute; reflexivity.
Defined.

(** The numbers of the example above. *)
Example new_window_listed_numbers :
  new_window 1 "https://public-api.wordpress.com/connect/?action=request"
             (mkOptions 100 200 800 600) initial_world
  = (Ok (mkOptions 150 250 720 540),
     record [ log_info "Open in new window for https://public-api.wordpress.com/connect/?action=request" ]
            initial_world).
Proof. vm_compute. reflexivity. Qed.

Lemma new_window_not_listed_witness :
  new_window 1 "http://127.0.0.1:41050/read?x=1#top" (mkOptions 100 200 800 600)
             initial_world
  = (Ok (mkOptions 100 200 800 600),
     record [ log_info "Replacing internal url with public url";
              log_info "Using system default handler for URL: http://wordpress.com/read?x=1#top";
              shell_openExternal "http://wordpress.com/read?x=1#top";
              event_preventDefault 1 ] initial_world)
  /\ new_window 1 "https://en.support.wordpress.com/" (mkOptions 100 200 800 600)
                initial_world
     = (Ok (mkOptions 100 200 800 600),
        record [ log_info "Using system default handler for URL: https://en.support.wordpress.com/";
                 shell_openExternal "https://en.support.wordpress.com/";
                 event_preventDefault 1 ] initial_world).
Proof.
  assert (Hparse : forallb parses DONT_OPEN_IN_BROWSER = true)
    by (vm_compute; reflexivity).
  split.
  - assert (Hu : URL_new "http://127.0.0.1:41050/read?x=1#top"
                 = Ok (mkURL "http:" "" "" "127.0.0.1" "41050" "/read" "?x=1" "#top"))
      by (vm_compute; reflexivity).
    assert (Hnone : existsb (matches (mkURL "http:" "" "" "127.0.0.1" "41050" "/read"
                                            "?x=1" "#top"))
                            DONT_OPEN_IN_BROWSER = false)
      by (vm_compute; reflexivity).
    assert (Hhost : hostname (mkURL "http:" "" "" "127.0.0.1" "41050" "/read" "?x=1" "#top")
                    = server_host)
      by reflexivity.
    rewrite (proj2 (proj1 (new_window_not_listed 1 _ _ (mkOptions 100 200 800 600)
                             initial_world Hu Hparse Hnone) Hhost)).
    vm_compute. reflexivity.
  - assert (Hu : URL_new "https://en.support.wordpress.com/"
                 = Ok (mkURL "https:" "" "" "en.support.wordpress.com" "" "/" "" ""))
      by (vm_compute; reflexivity).
    assert (Hnone : existsb (matches (mkURL "https:" "" "" "en.support.wordpress.com" ""
                                            "/" "" ""))
                            DONT_OPEN_IN_BROWSER = false)
      by (vm_compute; reflexivity).
    assert (Hother : hostname (mkURL "https:" "" "" "en.support.wordpress.com" "" "/" "" "")
                     <> server_host)
      by (vm_compute; discriminate).
    rewrite (proj2 (proj2 (new_window_not_listed 1 _ _ (mkOptions 100 200 800 600)
                             initial_world Hu Hparse Hnone) Hother)).
    vm_compute. reflexivity.
Defined.

(** C8, the claim as written fails: with an editor URL that is not a URL
    the user's choice of Proceed in Browser ends in the [catch]; the
    external browser is not called, the window is not sent to My Sites and
    no last location is saved. *)
Lemma non_admin_unparsable_editor_url :
  cannot_open_editor 1 (mkInfo 42 "https://example.wordpress.com" "not a url" false)
                     (Ok 0) initial_world
  = (Ok tt,
     record [ log_info "Cannot open editor for site: ";
              dialog_showMessageBox
                (prompt (mkInfo 42 "https://example.wordpress.com" "not a url" false)
                        (mkURL "https:" "" "" "example.wordpress.com" "" "/" "" ""));
              log_info "User selected 'Proceed in Browser'...";
              log_error "Failed to prompt for Jetpack authorization: " ]
            initial_world)
  /\ opened (effects (snd (cannot_open_editor 1
              (mkInfo 42 "https://example.wordpress.com" "not a url" false)
              (Ok 0) initial_world))) = [].
Proof. split; vm_compute; reflexivity. Qed.

Lemma non_admin_proceeds_in_browser_witness :
  mb_buttons (prompt (mkInfo 42 "https://example.wordpress.com"
                             "https://example.wordpress.com/wp-admin/post.php?post=7"
                             false)
                     (mkURL "https:" "" "" "example.wordpress.com" "" "/" "" ""))
  = [ "Proceed in Browser"; "Cancel" ]
  /\ cannot_open_editor 1
       (mkInfo 42 "https://example.wordpress.com"
               "https://example.wordpress.com/wp-admin/post.php?post=7" false)
       (Ok 0) initial_world
     = (Ok tt,
        record [ log_info "Cannot open editor for site: ";
                 dialog_showMessageBox
                   (prompt (mkInfo 42 "https://example.wordpress.com"
                                   "https://example.wordpress.com/wp-admin/post.php?post=7"
                                   false)
                           (mkURL "https:" "" "" "example.wordpress.com" "" "/" "" ""));
                 log_info "User selected 'Proceed in Browser'...";
                 log_info ("Using system default handler for URL: "
                           +:+ "https://example.wordpress.com/wp-admin/post.php?post=7");
                 shell_openExternal "https://example.wordpress.com/wp-admin/post.php?post=7";
                 event_preventDefault 1;
                 showMySites;
                 Settings_saveSetting LAST_LOCATION
                                      ("/stats/day/" +:+ "example.wordpress.com") ]
               initial_world).
Proof.
  apply (non_admin_proceeds_in_browser 1
           (mkInfo 42 "https://example.wordpress.com"
                   "https://example.wordpress.com/wp-admin/post.php?post=7" false)
           (mkURL "https:" "" "" "example.wordpress.com" "" "/" "" "")
           (mkURL "https:" "" "" "example.wordpress.com" "" "/wp-admin/post.php"
                  "?post=7" "")
           initial_world).
  - reflexivity.
  - vm_compute. reflexivity.
  - vm_compute. reflexivity.
  - right. reflexivity.
Defined.


(** C5, where the code departs from the claim.  An administrator selects
    Enable SSO and Continue, the activation succeeds and the site data is
    refreshed.  The listener of [enable-site-option-response] is gone, but
    the listener of [request-site-response] is still registered after it
    has fired.  A second run of the flow registers a second one, and the
    next [request-site-response] then navigates twice.  And when the
    signal comes twice before the activation answers, both listeners of
    [enable-site-option-response] run on the one answer: the refresh is
    requested twice. *)
Theorem request_site_listener_is_never_removed :
  let info := mkInfo 42 "https://example.wordpress.com"
                     "https://example.wordpress.com/wp-login.php?redirect_to=https%3A%2F%2Fexample.wordpress.com%2Fwp-admin%2Fpost.php"
                     true in
  let after (m : M unit) (w : World) := snd (m w) in
  let w0 := after module_exports initial_world in
  let w1 := after (ipc_emit 1 (CannotOpenEditor info) (Ok 0)) w0 in
  let w2 := after (ipc_emit 2 (EnableSiteOptionResponse "success") (Ok 0)) w1 in
  let w3 := after (ipc_emit 3 RequestSiteResponse (Ok 0)) w2 in
  let w4 := after (ipc_emit 4 (CannotOpenEditor info) (Ok 0)) w3 in
  let w5 := after (ipc_emit 5 (EnableSiteOptionResponse "success") (Ok 0)) w4 in
  let w6 := after (ipc_emit 6 RequestSiteResponse (Ok 0)) w5 in
  let v2 := after (ipc_emit 2 (CannotOpenEditor info) (Ok 0)) w1 in
  let v3 := after (ipc_emit 3 (EnableSiteOptionResponse "success") (Ok 0)) v2 in
  listeners "enable-site-option-response" w1 = [ on_enable_site_option_response info ]
  /\ listeners "enable-site-option-response" w2 = []
  /\ listeners "request-site-response" w2 = [ on_request_site_response info ]
  /\ sent "navigate" (effects w3) = [ Path "/wp-admin/post.php" ]
  /\ listeners "request-site-response" w3 = [ on_request_site_response info ]
  /\ listeners "request-site-response" w5
     = [ on_request_site_response info; on_request_site_response info ]
  /\ sent "navigate" (effects w5) = [ Path "/wp-admin/post.php" ]
  /\ sent "navigate" (effects w6)
     = [ Path "/wp-admin/post.php"; Path "/wp-admin/post.php"; Path "/wp-admin/post.php" ]
  /\ listeners "enable-site-option-response" v2
     = [ on_enable_site_option_response info; on_enable_site_option_response info ]
  /\ sent "request-site" (effects v3) = [ SiteId 42; SiteId 42 ].
Proof. cbv zeta. repeat split; vm_compute; reflexivity. Qed.

(** ** Witnesses of the further properties *)

Lemma cannot_open_editor_footprint_witness :
  calls_only
    (editor_call 1
       (mkInfo 42 "https://example.wordpress.com"
               "https://example.wordpress.com/wp-admin/post.php?post=7" true)
       (mkURL "https:" "" "" "example.wordpress.com" "" "/" "" ""))
    (cannot_open_editor 1
       (mkInfo 42 "https://example.wordpress.com"
               "https://example.wordpress.com/wp-admin/post.php?post=7" true)
       (Ok 1))
  /\ (forall w,
        fst (cannot_open_editor 1
               (mkInfo 42 "https://example.wordpress.com"
                       "https://example.wordpress.com/wp-admin/post.php?post=7" true)
               (Ok 1) w) = Ok tt).
Proof.
  apply (cannot_open_editor_footprint 1
           (mkInfo 42 "https://example.wordpress.com"
                   "https://example.wordpress.com/wp-admin/post.php?post=7" true)
           (mkURL "https:" "" "" "example.wordpress.com" "" "/" "" "") (Ok 1)).
  vm_compute. reflexivity.
Defined.

Lemma selected_button_decides_witness :
  promptWpAdminAuth_try 1
    (mkInfo 42 "https://example.wordpress.com"
            "https://example.wordpress.com/wp-admin/post.php?post=7" true)
    (mkURL "https:" "" "" "example.wordpress.com" "" "/" "" "") (Ok 1) initial_world
  = (action 1
       (mkInfo 42 "https://example.wordpress.com"
               "https://example.wordpress.com/wp-admin/post.php?post=7" true)
       "Proceed in Browser" ;;;
     if String.eqb "Proceed in Browser" "Enable SSO and Continue"
     then ret tt
     else resetLocation (mkURL "https:" "" "" "example.wordpress.com" "" "/" "" ""))
      (record [ dialog_showMessageBox
                  (prompt (mkInfo 42 "https://example.wordpress.com"
                                  "https://example.wordpress.com/wp-admin/post.php?post=7"
                                  true)
                          (mkURL "https:" "" "" "example.wordpress.com" "" "/" "" "")) ]
              initial_world).
Proof.
  apply (selected_button_decides 1
           (mkInfo 42 "https://example.wordpress.com"
                   "https://example.wordpress.com/wp-admin/post.php?post=7" true)
           (mkURL "https:" "" "" "example.wordpress.com" "" "/" "" "")
           1 "Proceed in Browser" initial_world).
  reflexivity.
Defined.

Lemma enable_sso_defers_the_rest_witness :
  cannot_open_editor 1
    (mkInfo 42 "https://example.wordpress.com"
            "https://example.wordpress.com/wp-admin/post.php?post=7" true)
    (Ok 0) initial_world
  = (Ok tt,
     mkWorld
       (effects initial_world ++
        [ log_info "Cannot open editor for site: ";
          dialog_showMessageBox
            (prompt (mkInfo 42 "https://example.wordpress.com"
                            "https://example.wordpress.com/wp-admin/post.php?post=7" true)
                    (mkURL "https:" "" "" "example.wordpress.com" "" "/" "" ""));
          log_info "User selected 'Enable SSO and Continue' ";
          webContents_send "enable-site-option" (EnableSiteOption 42 "sso") ])
       (<["enable-site-option-response" :=
            (listeners "enable-site-option-response" initial_world
             ++ [ on_enable_site_option_response
                    (mkInfo 42 "https://example.wordpress.com"
                            "https://example.wordpress.com/wp-admin/post.php?post=7"
                            true) ])%list]>
          (ipc_events initial_world))).
Proof.
  apply (enable_sso_defers_the_rest 1
           (mkInfo 42 "https://example.wordpress.com"
                   "https://example.wordpress.com/wp-admin/post.php?post=7" true)
           (mkURL "https:" "" "" "example.wordpress.com" "" "/" "" "") initial_world).
  - reflexivity.
  - vm_compute. reflexivity.
Defined.

Lemma cancel_resets_location_witness :
  cannot_open_editor 1
    (mkInfo 42 "https://example.wordpress.com" "not a url" false) (Ok 1) initial_world
  = (Ok tt,
     record [ log_info "Cannot open editor for site: ";
              dialog_showMessageBox
                (prompt (mkInfo 42 "https://example.wordpress.com" "not a url" false)
                        (mkURL "https:" "" "" "example.wordpress.com" "" "/" "" ""));
              log_info "User selected 'Cancel'...";
              showMySites;
              Settings_saveSetting LAST_LOCATION
                ("/stats/day/"
                 +:+ hostname (mkURL "https:" "" "" "example.wordpress.com" "" "/" "" "")) ]
            initial_world)
  /\ cannot_open_editor 1
       (mkInfo 42 "https://example.wordpress.com" "not a url" false) (Ok 5) initial_world
     = (Ok tt,
        record [ log_info "Cannot open editor for site: ";
                 dialog_showMessageBox
                   (prompt (mkInfo 42 "https://example.wordpress.com" "not a url" false)
                           (mkURL "https:" "" "" "example.wordpress.com" "" "/" "" ""));
                 showMySites;
                 Settings_saveSetting LAST_LOCATION
                   ("/stats/day/"
                    +:+ hostname (mkURL "https:" "" "" "example.wordpress.com" "" "/" "" "")) ]
               initial_world).
Proof.
  assert (Hpo : URL_new (origin (mkInfo 42 "https://example.wordpress.com" "not a url" false))
                = Ok (mkURL "https:" "" "" "example.wordpress.com" "" "/" "" ""))
    by (vm_compute; reflexivity).
  split.
  - apply (proj1 (cancel_resets_location 1 _ _ 1 initial_world Hpo)). reflexivity.
  - apply (proj2 (cancel_resets_location 1 _ _ 5 initial_world Hpo)). lia.
Defined.


Lemma navigation_returns_one_of_two_witness :
  (snd (will_navigate 1 "http://evil.example/x" initial_world) = initial_world
   \/ exists es,
       snd (will_navigate 1 "http://evil.example/x" initial_world)
       = record es initial_world
       /\ prevented 1 es = 1)
  /\ ((mkOptions 100 200 800 600 = shrink_and_offset (mkOptions 100 200 800 600)
       /\ snd (new_window 1 "mailto:someone@example.com" (mkOptions 100 200 800 600)
                          initial_world)
          = record [ log_info ("Open in new window for " +:+ "mailto:someone@example.com") ]
                   initial_world)
      \/ (mkOptions 100 200 800 600 = mkOptions 100 200 800 600
          /\ exists es,
              snd (new_window 1 "mailto:someone@example.com" (mkOptions 100 200 800 600)
                              initial_world)
              = record es initial_world
              /\ prevented 1 es = 1)).
Proof.
  split.
  - apply (proj1 (navigation_returns_one_of_two 1 "http://evil.example/x"
                    (mkOptions 100 200 800 600) initial_world)).
    vm_compute. reflexivity.
  - apply (proj2 (navigation_returns_one_of_two 1 "mailto:someone@example.com"
                    (mkOptions 100 200 800 600) initial_world)).
    vm_compute. reflexivity.
Defined.

Lemma activation_answer_runs_every_listener_witness :
  let info := mkInfo 42 "https://example.wordpress.com"
                     "https://example.wordpress.com/wp-admin/post.php?post=7" true in
  let w0 := snd (module_exports initial_world) in
  let w1 := snd (ipc_emit 1 (CannotOpenEditor info) (Ok 0) w0) in
  let w2 := snd (ipc_emit 2 (CannotOpenEditor info) (Ok 0) w1) in
  let infos := omap captured (listeners "enable-site-option-response" w2) in
  let r := ipc_emit 3 (EnableSiteOptionResponse "success") (Ok 0) w2 in
  fst r = Ok tt
  /\ listeners "enable-site-option-response" (snd r) = []
  /\ listeners "request-site-response" (snd r) =
     (listeners "request-site-response" w2
      ++ (if String.eqb "success" "success"
          then map on_request_site_response infos else []))%list
  /\ sent "request-site" (effects (snd r)) =
     (sent "request-site" (effects w2)
      ++ (if String.eqb "success" "success"
          then map (fun i => SiteId (siteId i)) infos else []))%list
  /\ sent "navigate" (effects (snd r)) = sent "navigate" (effects w2).
Proof.
  cbv zeta.
  apply (activation_answer_runs_every_listener 3 "success" (Ok 0)).
  vm_compute. reflexivity.
Defined.

Lemma refresh_answer_keeps_its_listeners_witness :
  let info := mkInfo 42 "https://example.wordpress.com"
                     "https://example.wordpress.com/wp-admin/post.php?post=7" true in
  let w0 := snd (module_exports initial_world) in
  let w1 := snd (ipc_emit 1 (CannotOpenEditor info) (Ok 0) w0) in
  let w2 := snd (ipc_emit 2 (EnableSiteOptionResponse "success") (Ok 0) w1) in
  exists navs,
    ipc_emit 3 RequestSiteResponse (Ok 0) w2 = (Ok tt, record navs w2)
    /\ length (sent "navigate" navs) = length (listeners "request-site-response" w2).
Proof.
  cbv zeta.
  apply (proj2 (refresh_answer_keeps_its_listeners 3 (Ok 0))).
  vm_compute. reflexivity.
Defined.

Lemma navigate_after_refresh_witness :
  request_site_response (mkInfo 42 "https://example.wordpress.com" "not a url" true)
                        initial_world
  = (Throw (ERR_INVALID_URL "not a url"),
     record [ log_info "Received state refresh for site: " ] initial_world)
  /\ request_site_response
       (mkInfo 42 "https://example.wordpress.com"
               "https://example.wordpress.com/wp-admin/post.php?post=7" true)
       initial_world
     = (Ok tt,
        record [ log_info "Received state refresh for site: ";
                 webContents_send "navigate"
                   (Path "https://example.wordpress.com/wp-admin/post.php?post=7") ]
               initial_world)
  /\ request_site_response
       (mkInfo 42 "https://example.wordpress.com"
               "https://example.wordpress.com/wp-login.php?redirect_to=https%3A%2F%2Fexample.wordpress.com%2Fwp-admin%2Fpost.php"
               true)
       initial_world
     = (Ok tt,
        record [ log_info "Received state refresh for site: ";
                 webContents_send "navigate" (Path "/wp-admin/post.php") ]
               initial_world)
  /\ request_site_response
       (mkInfo 42 "https://example.wordpress.com"
               "https://example.wordpress.com/wp-login.php?redirect_to=%2Fwp-admin%2Fpost.php"
               true)
       initial_world
     = (Throw (ERR_INVALID_URL "/wp-admin/post.php"),
        record [ log_info "Received state refresh for site: " ] initial_world).
Proof.
  split; [| split; [| split]].
  - apply (proj1 (navigate_after_refresh
                    (mkInfo 42 "https://example.wordpress.com" "not a url" true)
                    initial_world)).
    vm_compute. reflexivity.
  - apply (proj1 (proj2 (navigate_after_refresh
                           (mkInfo 42 "https://example.wordpress.com"
                                   "https://example.wordpress.com/wp-admin/post.php?post=7"
                                   true)
                           initial_world))
             (mkURL "https:" "" "" "example.wordpress.com" "" "/wp-admin/post.php"
                    "?post=7" "")).
    + vm_compute. reflexivity.
    + left. vm_compute. reflexivity.
  - assert (Hu : URL_new "https://example.wordpress.com/wp-login.php?redirect_to=https%3A%2F%2Fexample.wordpress.com%2Fwp-admin%2Fpost.php"
                 = Ok (mkURL "https:" "" "" "example.wordpress.com" "" "/wp-login.php"
                             "?redirect_to=https%3A%2F%2Fexample.wordpress.com%2Fwp-admin%2Fpost.php"
                             ""))
      by (vm_compute; reflexivity).
    assert (Hget : URL_searchParams_get
                     (mkURL "https:" "" "" "example.wordpress.com" "" "/wp-login.php"
                            "?redirect_to=https%3A%2F%2Fexample.wordpress.com%2Fwp-admin%2Fpost.php"
                            "")
                     "redirect_to"
                   = Some "https://example.wordpress.com/wp-admin/post.php")
      by (vm_compute; reflexivity).
    assert (Hne : "https://example.wordpress.com/wp-admin/post.php" <> "")
      by discriminate.
    apply (proj1 (proj2 (proj2 (navigate_after_refresh
                                  (mkInfo 42 "https://example.wordpress.com"
                                          "https://example.wordpress.com/wp-login.php?redirect_to=https%3A%2F%2Fexample.wordpress.com%2Fwp-admin%2Fpost.php"
                                          true)
                                  initial_world))
                    _ _ Hu Hget Hne)
             (mkURL "https:" "" "" "example.wordpress.com" "" "/wp-admin/post.php" "" "")).
    vm_compute. reflexivity.
  - assert (Hu : URL_new "https://example.wordpress.com/wp-login.php?redirect_to=%2Fwp-admin%2Fpost.php"
                 = Ok (mkURL "https:" "" "" "example.wordpress.com" "" "/wp-login.php"
                             "?redirect_to=%2Fwp-admin%2Fpost.php" ""))
      by (vm_compute; reflexivity).
    assert (Hget : URL_searchParams_get
                     (mkURL "https:" "" "" "example.wordpress.com" "" "/wp-login.php"
                            "?redirect_to=%2Fwp-admin%2Fpost.php" "")
                     "redirect_to"
                   = Some "/wp-admin/post.php")
      by (vm_compute; reflexivity).
    assert (Hne : "/wp-admin/post.php" <> "") by discriminate.
    apply (proj2 (proj2 (proj2 (navigate_after_refresh
                                  (mkInfo 42 "https://example.wordpress.com"
                                          "https://example.wordpress.com/wp-login.php?redirect_to=%2Fwp-admin%2Fpost.php"
                                          true)
                                  initial_world))
                    _ _ Hu Hget Hne)).
    vm_compute. reflexivity.
Defined.

Lemma domainAndPathSame_preorder_witness :
  domainAndPathSame (mkURL "https:" "" "" "x" "8443" "/foo" "?a=1" "")
                    (mkURL "http:" "" "" "x" "" "/*" "" "") = true.
Proof.
  apply (proj2 domainAndPathSame_preorder
           (mkURL "https:" "" "" "x" "8443" "/foo" "?a=1" "")
           (mkURL "http:" "" "" "x" "" "/foo" "" "")
           (mkURL "http:" "" "" "x" "" "/*" "" ""));
    reflexivity.
Defined.

Lemma revisions_agree_for_non_admin_witness :
  let info := mkInfo 42 "https://example.wordpress.com"
                     "https://example.wordpress.com/wp-admin/post.php?post=7" false in
  fst (cannot_open_editor 1 info (Ok 0) initial_world)
  = fst (cannot_open_editor_earlier 1 info (Ok 0) initial_world)
  /\ ipc_events (snd (cannot_open_editor 1 info (Ok 0) initial_world))
     = ipc_events (snd (cannot_open_editor_earlier 1 info (Ok 0) initial_world))
  /\ essential (effects (snd (cannot_open_editor 1 info (Ok 0) initial_world)))
     = essential (effects (snd (cannot_open_editor_earlier 1 info (Ok 0) initial_world)))
  /\ (forall po, mb_buttons (prompt info po) = mb_buttons (prompt_earlier po)).
Proof.
  cbv zeta.
  apply (revisions_agree_for_non_admin 1
           (mkInfo 42 "https://example.wordpress.com"
                   "https://example.wordpress.com/wp-admin/post.php?post=7" false)
           (Ok 0) initial_world).
  reflexivity.
Defined.

Lemma unparsable_configuration_stops_navigation_witness :
  @will_navigate Node.url_module Node.config_unset 1 "https://wordpress.com/wp-login.php"
                 initial_world
  = (Throw (ERR_INVALID_URL "http://"), initial_world)
  /\ @new_window Node.url_module Node.config_unset 1
                 "https://public-api.wordpress.com/connect/"
                 (mkOptions 100 200 800 600) initial_world
     = (Throw (ERR_INVALID_URL ""), initial_world).
Proof.
  split.
  - apply (proj1 (@unparsable_configuration_stops_navigation
                    Node.url_module Node.config_unset 1
                    "https://wordpress.com/wp-login.php"
                    (mkURL "https:" "" "" "wordpress.com" "" "/wp-login.php" "" "")
                    (mkOptions 100 200 800 600) initial_world
                    (ERR_INVALID_URL "http://")
                    ltac:(vm_compute; reflexivity)));
      vm_compute; reflexivity.
  - apply (proj2 (@unparsable_configuration_stops_navigation
                    Node.url_module Node.config_unset 1
                    "https://public-api.wordpress.com/connect/"
                    (mkURL "https:" "" "" "public-api.wordpress.com" "" "/connect/" "" "")
                    (mkOptions 100 200 800 600) initial_world
                    (ERR_INVALID_URL "")
                    ltac:(vm_compute; reflexivity)));
      vm_compute; reflexivity.
Defined.

(** C10, the claim as written fails: two destinations with the same host
    name and path, listed nowhere, are not routed alike when their schemes
    differ.  The http one is handed to the external browser; the ftp one
    is only suppressed. *)
Lemma same_host_and_path_routed_apart :
  URL_new "http://evil.example/x" = Ok (mkURL "http:" "" "" "evil.example" "" "/x" "" "")
  /\ URL_new "ftp://evil.example/x" = Ok (mkURL "ftp:" "" "" "evil.example" "" "/x" "" "")
  /\ opened (effects (snd (will_navigate 1 "http://evil.example/x" initial_world)))
     = [ "http://evil.example/x" ]
  /\ opened (effects (snd (will_navigate 1 "ftp://evil.example/x" initial_world)))
     = []
  /\ effects (snd (will_navigate 1 "ftp://evil.example/x" initial_world))
     = [ event_preventDefault 1 ].
Proof. repeat split; vm_compute; reflexivity. Qed.

Lemma classification_by_host_and_path_witness :
  (forall b,
      domainAndPathSame
        (mkURL "https:" "" "" "wordpress.com" "8443" "/wp-login.php" "?action=logout" "#top") b
      = domainAndPathSame
          (mkURL "http:" "" "" "wordpress.com" "" "/wp-login.php" "" "") b)
  /\ (will_navigate 1 "https://wordpress.com:8443/wp-login.php?action=logout#top"
                    initial_world = (Ok tt, initial_world)
      /\ will_navigate 1 "http://wordpress.com/wp-login.php" initial_world
         = (Ok tt, initial_world))
  /\ (new_window 1 "http://evil.example/x" (mkOptions 100 200 800 600) initial_world
      = (Ok (mkOptions 100 200 800 600),
         record [ log_info "Using system default handler for URL: http://evil.example/x";
                  shell_openExternal "http://evil.example/x";
                  event_preventDefault 1 ] initial_world)
      /\ new_window 1 "ftp://evil.example/x" (mkOptions 100 200 800 600) initial_world
         = (Ok (mkOptions 100 200 800 600),
            record [ event_preventDefault 1 ] initial_world)).
Proof.
  split; [| split].
  - apply (classification_by_host_and_path
             (mkURL "https:" "" "" "wordpress.com" "8443" "/wp-login.php"
                    "?action=logout" "#top")
             (mkURL "http:" "" "" "wordpress.com" "" "/wp-login.php" "" ""));
      reflexivity.
  - assert (Hu : URL_new "https://wordpress.com:8443/wp-login.php?action=logout#top"
                 = Ok (mkURL "https:" "" "" "wordpress.com" "8443" "/wp-login.php"
                             "?action=logout" "#top"))
      by (vm_compute; reflexivity).
    assert (Hu' : URL_new "http://wordpress.com/wp-login.php"
                  = Ok (mkURL "http:" "" "" "wordpress.com" "" "/wp-login.php" "" ""))
      by (vm_compute; reflexivity).
    destruct (proj1 (proj2 (proj2 (classification_by_host_and_path
                                     (mkURL "https:" "" "" "wordpress.com" "8443"
                                            "/wp-login.php" "?action=logout" "#top")
                                     (mkURL "http:" "" "" "wordpress.com" ""
                                            "/wp-login.php" "" "")
                                     eq_refl eq_refl)))
                1 _ _ initial_world Hu Hu')
      as (decision & Hdecision & _ & Hnavigate & Hnavigate').
    rewrite Hnavigate, Hnavigate', <- Hdecision. split; vm_compute; reflexivity.
  - assert (Hu : URL_new "http://evil.example/x"
                 = Ok (mkURL "http:" "" "" "evil.example" "" "/x" "" ""))
      by (vm_compute; reflexivity).
    assert (Hu' : URL_new "ftp://evil.example/x"
                  = Ok (mkURL "ftp:" "" "" "evil.example" "" "/x" "" ""))
      by (vm_compute; reflexivity).
    destruct (proj2 (proj2 (proj2 (classification_by_host_and_path
                                     (mkURL "http:" "" "" "evil.example" "" "/x" "" "")
                                     (mkURL "ftp:" "" "" "evil.example" "" "/x" "" "")
                                     eq_refl eq_refl)))
                1 _ _ (mkOptions 100 200 800 600) initial_world Hu Hu')
      as (decision & internal & Hdecision & _ & Hinternal & _ & Hwindow & Hwindow').
    rewrite Hwindow, Hwindow', <- Hdecision, <- Hinternal.
    split; vm_compute; reflexivity.
Defined.
